(** * MoE router: routing strategies, dispatch, ledger and broadcast

    A shallow embedding of [moe_router/main.py].  Python values are
    modelled structurally, the orchestrator object is an explicit state, and
    every answer of the outside world (the generative model, the expert
    services, the observer sockets) is an explicit argument. *)

From Stdlib Require Import Ascii String QArith Qminmax Lqa.
From stdpp Require Import gmap strings list fin_maps.

Set Warnings "-register-all,-clear-no-such-hyp".

Local Open Scope Z_scope.
Local Open Scope string_scope.
Local Open Scope list_scope.

(** ** Text

    [str] values are strings of 8-bit characters; [lower] is [str.lower]
    on them, which only moves the letters [A]..[Z]. *)

Definition lower_char (c : ascii) : ascii :=
  let n := N_of_ascii c in
  if ((65 <=? n) && (n <=? 90))%N then ascii_of_N (n + 32) else c.

Fixpoint lower (s : string) : string :=
  match s with
  | EmptyString => EmptyString
  | String c t => String (lower_char c) (lower t)
  end.

(** [starts_with w s]: [s.startswith(w)]. *)
Fixpoint starts_with (w s : string) : bool :=
  match w, s with
  | EmptyString, _ => true
  | String _ _, EmptyString => false
  | String a w', String b s' => Ascii.eqb a b && starts_with w' s'
  end.

(** [str_in w s]: the Python test [w in s] on two strings. *)
Fixpoint str_in (w s : string) : bool :=
  starts_with w s ||
  match s with
  | EmptyString => false
  | String _ s' => str_in w s'
  end.

(** [any(word in text for word in words)]. *)
Definition any_word_in (words : list string) (text : string) : bool :=
  existsb (fun word => str_in word text) words.

(** [sep.join(parts)]. *)
Fixpoint join (sep : string) (parts : list string) : string :=
  match parts with
  | [] => ""
  | [p] => p
  | p :: rest => p +:+ sep +:+ join sep rest
  end.

(** ** Request and decision models *)

Inductive RequestType := CREDIT | FRAUD | ESG | GENERAL.

Definition RequestType_value (t : RequestType) : string :=
  match t with
  | CREDIT => "credit"
  | FRAUD => "fraud"
  | ESG => "esg"
  | GENERAL => "general"
  end.

Global Instance RequestType_eq_dec : EqDecision RequestType.
Proof. solve_decision. Defined.

(** A Python value, as far as the router handles them: what [json.loads]
    returns, what [.dict()] returns (which may hold [datetime] objects) and
    what [json.dumps] is given. *)
Inductive pyobj :=
| PNone
| PBool (b : bool)
| PInt (n : Z)
| PFloat (q : Q)
| PStr (s : string)
| PList (l : list pyobj)
| PDict (d : list (string * pyobj))
| PDatetime (t : Z).

(** [d.get(key, default)] on a dict given by its items. *)
Fixpoint dict_get (d : list (string * pyobj)) (key : string) (default : pyobj) : pyobj :=
  match d with
  | [] => default
  | (k, v) :: d' => if String.eqb k key then v else dict_get d' key default
  end.

Fixpoint dict_has (d : list (string * pyobj)) (key : string) : bool :=
  match d with
  | [] => false
  | (k, _) :: d' => String.eqb k key || dict_has d' key
  end.

(** [type(v).__name__], as it appears in an [AttributeError]. *)
Definition type_name (v : pyobj) : string :=
  match v with
  | PNone => "NoneType"
  | PBool _ => "bool"
  | PInt _ => "int"
  | PFloat _ => "float"
  | PStr _ => "str"
  | PList _ => "list"
  | PDict _ => "dict"
  | PDatetime _ => "datetime"
  end.

(** The standard encoder of [json.dumps] knows [None], booleans, numbers,
    strings, lists and dicts; on anything else, here a [datetime], it raises
    [TypeError]. *)
Fixpoint serializable (v : pyobj) : bool :=
  match v with
  | PDatetime _ => false
  | PList l => forallb serializable l
  | PDict d => forallb (fun kv => let '(_, x) := kv in serializable x) d
  | _ => true
  end.

(** What [json.loads] gives, and so what a decoded request body holds:
    the values the encoder knows. *)
Inductive json :=
| JNull
| JBool (b : bool)
| JInt (n : Z)
| JFloat (q : Q)
| JStr (s : string)
| JList (l : list json)
| JDict (d : list (string * json)).

(** A decoded JSON value as the Python object it is. *)
Fixpoint to_py (j : json) : pyobj :=
  match j with
  | JNull => PNone
  | JBool b => PBool b
  | JInt n => PInt n
  | JFloat q => PFloat q
  | JStr s => PStr s
  | JList l => PList (List.map to_py l)
  | JDict d => PDict (List.map (fun kv => let '(k, x) := kv in (k, to_py x)) d)
  end.

Record AgentDescriptor := {
  agent_id : string;
  agent_name : string;
  agent_type : string;
  capabilities : list string;
  endpoint : string;
  model : string
}.

(** [AGENT_REGISTRY], in the order the dict literal lists its keys; the
    endpoints are the defaults of the three [os.getenv] calls. *)
Definition AGENT_REGISTRY : list (string * AgentDescriptor) :=
  [ ("credit-agent",
     {| agent_id := "credit-agent"; agent_name := "Credit Evaluation Agent";
        agent_type := "credit";
        capabilities := ["credit_scoring"; "risk_assessment"; "loan_eligibility"];
        endpoint := "http://localhost:8081"; model := "gemini-1.5-flash" |});
    ("fraud-agent",
     {| agent_id := "fraud-agent"; agent_name := "Fraud Detection Agent";
        agent_type := "fraud";
        capabilities := ["transaction_analysis"; "pattern_detection"; "anomaly_detection"];
        endpoint := "http://localhost:8082"; model := "gemini-1.5-flash" |});
    ("esg-agent",
     {| agent_id := "esg-agent"; agent_name := "ESG Analysis Agent";
        agent_type := "esg";
        capabilities := ["environmental_impact"; "social_compliance"; "governance_assessment"];
        endpoint := "http://localhost:8083"; model := "gemini-1.5-pro" |}) ].

(** [registry[key]] / [key in registry] on a dict given by its items. *)
Fixpoint registry_get (registry : list (string * AgentDescriptor)) (key : string)
  : option AgentDescriptor :=
  match registry with
  | [] => None
  | (k, a) :: rest => if String.eqb k key then Some a else registry_get rest key
  end.

(** [AgentRequest].  The only requests the router handles are those FastAPI
    builds from the body of [POST /route], so [metadata], a
    [Dict[str, Any]], holds decoded JSON. *)
Record AgentRequest := {
  req_id : string;
  req_type : RequestType;
  req_content : string;
  req_metadata : list (string * json);
  req_timestamp : Z
}.

(** [request.metadata] as a Python dict. *)
Definition metadata_dict (request : AgentRequest) : pyobj :=
  to_py (JDict (req_metadata request)).

Record RoutingDecision := {
  request_id : string;
  selected_agents : list string;
  reasoning : string;
  confidence : Q;
  timestamp : Z
}.

(** ** Rule-based strategy *)

(** [RulesRouterStrategy.route]; [now] is the reading of [datetime.now] that
    fills the decision's [timestamp]. *)
Definition RulesRouterStrategy_route (request : AgentRequest) (now : Z) : RoutingDecision :=
  let '(selected, why) :=
    match req_type request with
    | CREDIT => (["credit-agent"], "Credit request routed to credit specialist")
    | FRAUD => (["fraud-agent"], "Fraud detection request routed to fraud specialist")
    | ESG => (["esg-agent"], "ESG request routed to ESG specialist")
    | GENERAL =>
        let content_lower := lower (req_content request) in
        let selected : list string := [] in
        let selected :=
          if any_word_in ["credit"; "loan"; "score"] content_lower
          then selected ++ ["credit-agent"] else selected in
        let selected :=
          if any_word_in ["fraud"; "suspicious"; "anomaly"] content_lower
          then selected ++ ["fraud-agent"] else selected in
        let selected :=
          if any_word_in ["esg"; "environmental"; "sustainability"] content_lower
          then selected ++ ["esg-agent"] else selected in
        let selected :=
          match selected with [] => ["credit-agent"] | _ => selected end in
        (selected, "Content analysis routed to: " +:+ join ", " selected)
    end in
  {| request_id := req_id request;
     selected_agents := selected;
     reasoning := why;
     confidence := 0.75;
     timestamp := now |}.

(** ** The rule-based strategy as the specification words it

    Written from the specification, to be compared with
    [RulesRouterStrategy_route] above. *)

Definition spec_keywords (category : string) : list string :=
  if String.eqb category "credit" then ["credit"; "loan"; "score"]
  else if String.eqb category "fraud" then ["fraud"; "suspicious"; "anomaly"]
  else if String.eqb category "esg" then ["esg"; "environmental"; "sustainability"]
  else [].

(** Two characters that differ at most in case. *)
Definition same_letter (a b : ascii) : bool :=
  Ascii.eqb (lower_char a) (lower_char b).

Fixpoint ci_starts_with (w s : string) : bool :=
  match w, s with
  | EmptyString, _ => true
  | String _ _, EmptyString => false
  | String a w', String b s' => same_letter a b && ci_starts_with w' s'
  end.

(** The keyword occurs somewhere in the text, letter case ignored. *)
Fixpoint ci_occurs (w s : string) : bool :=
  ci_starts_with w s ||
  match s with
  | EmptyString => false
  | String _ s' => ci_occurs w s'
  end.

Definition spec_hit (content : string) (a : AgentDescriptor) : bool :=
  existsb (fun kw => ci_occurs kw content) (spec_keywords (agent_type a)).

Definition spec_default_agent : string := "credit-agent".

(** The registered agents in registry order. *)
Definition specialists : list AgentDescriptor := List.map snd AGENT_REGISTRY.

Definition spec_selected (request : AgentRequest) : list string :=
  match req_type request with
  | GENERAL =>
      match List.filter (spec_hit (req_content request)) specialists with
      | [] => [spec_default_agent]
      | hits => List.map agent_id hits
      end
  | category =>
      List.map agent_id
        (List.filter (fun a => String.eqb (agent_type a) (RequestType_value category))
           specialists)
  end.

Definition spec_confidence : Q := 0.75.

(** ** Field validation

    [RoutingDecision(...)] and [AgentResponse(...)] validate their arguments
    against the declared field types and raise [ValidationError] when one
    does not fit.  How a value of another type is treated (coerced or
    refused) is the validation library's business; what is fixed here is
    that a value already of the declared type is taken as it is, and an
    integer where a float is declared as that number. *)

Inductive validated (A : Type) :=
| Valid (a : A)
| Invalid (why : string).
Arguments Valid {A} a.
Arguments Invalid {A} why.

Class FieldValidation := {
  as_str : pyobj → validated string;
  as_str_list : pyobj → validated (list string);
  as_float : pyobj → validated Q;
  as_str_ok : ∀ s, as_str (PStr s) = Valid s;
  as_str_list_ok : ∀ l, as_str_list (PList (PStr <$> l)) = Valid l;
  as_float_ok : ∀ q, as_float (PFloat q) = Valid q;
  as_float_int_ok : ∀ n, as_float (PInt n) = Valid (inject_Z n)
}.

(** The number a JSON number stands for. *)
Definition number_of (v : pyobj) : option Q :=
  match v with
  | PFloat q => Some q
  | PInt n => Some (inject_Z n)
  | _ => None
  end.

(** The strictest validation: nothing but the declared type passes. *)
Definition strict_str (v : pyobj) : validated string :=
  match v with
  | PStr s => Valid s
  | _ => Invalid "str type expected"
  end.

Fixpoint strict_str_list_items (l : list pyobj) : validated (list string) :=
  match l with
  | [] => Valid []
  | PStr s :: l' =>
      match strict_str_list_items l' with
      | Valid r => Valid (s :: r)
      | Invalid why => Invalid why
      end
  | _ :: _ => Invalid "str type expected"
  end.

Definition strict_str_list (v : pyobj) : validated (list string) :=
  match v with
  | PList l => strict_str_list_items l
  | _ => Invalid "value is not a valid list"
  end.

Definition strict_float (v : pyobj) : validated Q :=
  match v with
  | PFloat q => Valid q
  | PInt n => Valid (inject_Z n)
  | _ => Invalid "value is not a valid float"
  end.

#[export] Instance strict_validation : FieldValidation.
Proof.
  refine {| as_str := strict_str; as_str_list := strict_str_list;
            as_float := strict_float |}.
  - reflexivity.
  - intros l. unfold strict_str_list.
    induction l as [| s l IH]; [reflexivity |].
    rewrite fmap_cons. simpl. rewrite IH. reflexivity.
  - reflexivity.
  - reflexivity.
Defined.

(** ** Exceptions and the orchestrator's state *)

Inductive exn :=
| Exception (msg : string)
| TypeError (msg : string)
| AttributeError (msg : string)
| ValueError (msg : string)
| KeyError (key : string).

(** [str(e)]. *)
Definition exn_str (e : exn) : string :=
  match e with
  | Exception msg | TypeError msg | AttributeError msg | ValueError msg => msg
  | KeyError key => "'" +:+ key +:+ "'"
  end.

Inductive result (A : Type) :=
| Ok (a : A)
| Raise (e : exn).
Arguments Ok {A} a.
Arguments Raise {A} e.

Record AgentResponse := {
  ar_request_id : string;
  ar_agent_id : string;
  ar_response : string;
  ar_metadata : list (string * pyobj);
  ar_processing_time_ms : Z;
  ar_timestamp : Z
}.

(** One value of the [responses] dict: [AgentResponse(...).dict()] or the
    [{"error": ..., "agent_id": ...}] literal. *)
Inductive outcome :=
| Success (r : AgentResponse)
| Failure (error : string) (agent : string).

Record RequestRecord := {
  rec_request : AgentRequest;
  rec_routing : RoutingDecision;
  rec_responses : gmap string outcome;
  rec_status : string
}.

(** A message handed to [send_text]: the dict that [_broadcast_update]
    encodes; the JSON text is identified with the dict it encodes. *)
Record message := {
  msg_type : string;
  msg_data : pyobj;
  msg_timestamp : Z
}.

(** What the process did to the outside world, in order. *)
Inductive event :=
| Log_info_routing (request : string) (selected : list string)
| Log_error_llm (e : string)
| Log_error_agent (agent : string) (e : string)
| Log_error_routing (e : string)
| Generate_content
| Post_started (url : string) (at_time : Z)
| Post_finished (url : string) (at_time : Z)
| Send_text (connection : nat) (m : message) (delivered : bool).

Inductive Strategy := LLMRouterStrategy | RulesRouterStrategy.

(** The [RouterOrchestrator] object together with the process clock and the
    record of its effects.  A WebSocket object is known by a number. *)
Record Orchestrator := {
  strategy : Strategy;
  active_requests : gmap string RequestRecord;
  websocket_connections : list nat;
  clock : Z;
  trace : list event
}.

Definition set_active_requests (f : gmap string RequestRecord → gmap string RequestRecord)
    (o : Orchestrator) : Orchestrator :=
  {| strategy := strategy o; active_requests := f (active_requests o);
     websocket_connections := websocket_connections o;
     clock := clock o; trace := trace o |}.

Definition set_websocket_connections (f : list nat → list nat) (o : Orchestrator) : Orchestrator :=
  {| strategy := strategy o; active_requests := active_requests o;
     websocket_connections := f (websocket_connections o);
     clock := clock o; trace := trace o |}.

Definition advance_clock (d : Z) (o : Orchestrator) : Orchestrator :=
  {| strategy := strategy o; active_requests := active_requests o;
     websocket_connections := websocket_connections o;
     clock := clock o + d; trace := trace o |}.

Definition emit (e : event) (o : Orchestrator) : Orchestrator :=
  {| strategy := strategy o; active_requests := active_requests o;
     websocket_connections := websocket_connections o;
     clock := clock o; trace := trace o ++ [e] |}.

(** A computation on the orchestrator that returns or raises. *)
Definition M (A : Type) : Type := Orchestrator → result A * Orchestrator.

Definition ret {A} (a : A) : M A := λ o, (Ok a, o).
Definition raise {A} (e : exn) : M A := λ o, (Raise e, o).
Definition bind {A B} (m : M A) (k : A → M B) : M B :=
  λ o, match m o with
       | (Ok a, o') => k a o'
       | (Raise e, o') => (Raise e, o')
       end.
Definition get : M Orchestrator := λ o, (Ok o, o).
Definition modify (f : Orchestrator → Orchestrator) : M unit := λ o, (Ok tt, f o).
(** [try: m  except Exception as e: handler(e)]. *)
Definition try_except {A} (m : M A) (handler : exn → M A) : M A :=
  λ o, match m o with
       | (Ok a, o') => (Ok a, o')
       | (Raise e, o') => handler e o'
       end.

Notation "'let!' x ':=' m 'in' k" := (bind m (λ x, k))
  (at level 10, x name, m at level 100, k at level 200).

(** ** The outside world *)

(** What [generate_content] followed by [json.loads(response.text)] comes
    to: the call raises, or it returns a text that [json.loads] refuses
    ([inl], with the decoder's complaint) or decodes ([inr]). *)
Inductive llm_reply :=
| Generate_raised (e : string)
| Generate_returned (loads : string + pyobj).

(** What one [client.post] and the reading of its response come to. *)
Inductive http_reply :=
| Post_timeout
| Post_failed (e : string)
| Post_response (raise_for_status : option string) (json : string + pyobj).

(** The generative call raised, or its output did not parse as JSON. *)
Definition call_failed (r : llm_reply) : Prop :=
  match r with
  | Generate_raised _ => True
  | Generate_returned (inl _) => True
  | Generate_returned (inr _) => False
  end.

(** An expert call that timed out, met a transport error or an error
    status, or whose body is malformed: not JSON, or not a JSON object. *)
Definition expert_call_failed (r : http_reply) : Prop :=
  match r with
  | Post_timeout => True
  | Post_failed _ => True
  | Post_response (Some _) _ => True
  | Post_response None (inl _) => True
  | Post_response None (inr (PDict _)) => False
  | Post_response None (inr _) => True
  end.

Record World := {
  llm : llm_reply;
  llm_took : Z;
  (** what the network and the expert make of the [k]-th call awaited in a
      dispatch when its post is sent, and how long the call takes from the
      moment it starts *)
  http : nat → http_reply;
  http_took : nat → Z;
  (** does [send_text] of this message on this connection go through *)
  send_text : nat → message → bool
}.

(** What an API route answers. *)
Inductive http_answer (A : Type) :=
| HTTP_200 (body : A)
| HTTP_error (status_code : Z) (detail : string).
Arguments HTTP_200 {A} body.
Arguments HTTP_error {A} status_code detail.

(** ** Model-based strategy *)

Definition no_attribute_get (v : pyobj) : exn :=
  AttributeError ("'" +:+ type_name v +:+ "' object has no attribute 'get'").

Section Router.
Context {V : FieldValidation}.

(** The module-level [AGENT_REGISTRY] the orchestrator reads. *)
Variable registry : list (string * AgentDescriptor).

(** [RoutingDecision(request_id=..., selected_agents=decision_data.get(...),
    ...)]: the three [.get] with their defaults, then the validation of the
    fields. *)
Definition decision_from (request : AgentRequest) (decision_data : list (string * pyobj))
    (now : Z) : validated RoutingDecision :=
  match as_str_list (dict_get decision_data "selected_agents" (PList [])) with
  | Invalid why => Invalid why
  | Valid agents =>
      match as_str (dict_get decision_data "reasoning" (PStr "")) with
      | Invalid why => Invalid why
      | Valid why_chosen =>
          match as_float (dict_get decision_data "confidence" (PFloat 0.8)) with
          | Invalid why => Invalid why
          | Valid conf =>
              Valid {| request_id := req_id request;
                       selected_agents := agents;
                       reasoning := why_chosen;
                       confidence := conf;
                       timestamp := now |}
          end
      end
  end.

Definition RulesRouterStrategy_route_M (request : AgentRequest) : M RoutingDecision :=
  let! o := get in
  ret (RulesRouterStrategy_route request (clock o)).

(** [LLMRouterStrategy._create_routing_prompt], called before the [try]
    with the loads [_get_agent_loads] simulates, one per key of the
    registry.  The text only feeds [generate_content], whose answer is
    [llm W]; what is kept of it is whether building it raises, and the one
    step that can is [json.dumps(request.metadata)]. *)
Definition _create_routing_prompt (request : AgentRequest) : result unit :=
  if serializable (metadata_dict request) then Ok tt
  else Raise (TypeError "Object of type datetime is not JSON serializable").

(** [LLMRouterStrategy.route]: the prompt, outside the [try]; then the
    model call, the parsing of its output and the fallback. *)
Definition LLMRouterStrategy_route (W : World) (request : AgentRequest) : M RoutingDecision :=
  match _create_routing_prompt request with
  | Raise e => raise e
  | Ok _ =>
      try_except
        (let! _ := modify (emit Generate_content) in
         let! _ := modify (advance_clock (llm_took W)) in
         match llm W with
         | Generate_raised e => raise (Exception e)
         | Generate_returned (inl e) => raise (ValueError e)
         | Generate_returned (inr (PDict decision_data)) =>
             let! o := get in
             match decision_from request decision_data (clock o) with
             | Valid decision => ret decision
             | Invalid why => raise (ValueError why)
             end
         | Generate_returned (inr v) => raise (no_attribute_get v)
         end)
        (λ e,
           let! _ := modify (emit (Log_error_llm (exn_str e))) in
           RulesRouterStrategy_route_M request)
  end.

(** ** Dispatch *)

(** [request.dict()]: the [type] is a member of a [str] enum, the
    [timestamp] stays a [datetime] object. *)
Definition AgentRequest_dict (request : AgentRequest) : pyobj :=
  PDict [ ("id", PStr (req_id request));
          ("type", PStr (RequestType_value (req_type request)));
          ("content", PStr (req_content request));
          ("metadata", metadata_dict request);
          ("timestamp", PDatetime (req_timestamp request)) ].

(** [client.post(url, json=payload)]: the payload is encoded with
    [json.dumps] before anything is sent.  When the encoding raises, the
    post comes to that [TypeError] and the expert is never reached;
    otherwise it comes to what the network and the expert make of it. *)
Definition client_post (payload : pyobj) (reply : http_reply) : http_reply :=
  if serializable payload then reply
  else Post_failed "Object of type datetime is not JSON serializable".

(** The [try] of [_call_agent], given what the post came to:
    [raise_for_status], [response.json().get("response", "")] and the two
    [except] clauses. *)
Definition response_of (agent : AgentDescriptor) (posted : http_reply) : result pyobj :=
  match posted with
  | Post_timeout =>
      Raise (Exception ("Agent " +:+ agent_id agent +:+ " timed out"))
  | Post_failed e =>
      Raise (Exception ("Agent " +:+ agent_id agent +:+ " error: " +:+ e))
  | Post_response (Some e) _ =>
      Raise (Exception ("Agent " +:+ agent_id agent +:+ " error: " +:+ e))
  | Post_response None (inl e) =>
      Raise (Exception ("Agent " +:+ agent_id agent +:+ " error: " +:+ e))
  | Post_response None (inr (PDict body)) =>
      Ok (dict_get body "response" (PStr ""))
  | Post_response None (inr v) =>
      Raise (Exception ("Agent " +:+ agent_id agent +:+ " error: "
                        +:+ exn_str (no_attribute_get v)))
  end.

(** [_call_agent]: the [k]-th call awaited in the dispatch.  [Post_started]
    and [Post_finished] mark the entry into [client.post] and the moment the
    call is over; [http_took W k] is the time in between. *)
Definition _call_agent (W : World) (k : nat) (request : AgentRequest) (agent : AgentDescriptor)
  : M pyobj :=
  let url := endpoint agent +:+ "/process" in
  let! o := get in
  let! _ := modify (emit (Post_started url (clock o))) in
  let! _ := modify (advance_clock (http_took W k)) in
  let! o' := get in
  let! _ := modify (emit (Post_finished url (clock o'))) in
  match response_of agent (client_post (AgentRequest_dict request) (http W k)) with
  | Ok response => ret response
  | Raise e => raise e
  end.

(** The first loop of [_send_to_agents]: one [(agent_id, task)] pair per
    selected id found in the registry.  Building the task does not run it. *)
Fixpoint make_tasks (agent_ids : list string) : list (string * AgentDescriptor) :=
  match agent_ids with
  | [] => []
  | id :: rest =>
      match registry_get registry id with
      | Some agent => (id, agent) :: make_tasks rest
      | None => make_tasks rest
      end
  end.

(** One round of the second loop: the task is awaited, that is run from
    start to end, inside the [try]. *)
Definition await_one (W : World) (request : AgentRequest) (k : nat)
    (id : string) (agent : AgentDescriptor) (responses : gmap string outcome)
  : M (gmap string outcome) :=
  try_except
    (let! o := get in
     let start_time := clock o in
     let! response := _call_agent W k request agent in
     let! o' := get in
     let processing_time_ms := clock o' - start_time in
     match as_str response with
     | Valid text =>
         ret (<[id := Success {| ar_request_id := req_id request;
                                 ar_agent_id := id;
                                 ar_response := text;
                                 ar_metadata := [];
                                 ar_processing_time_ms := processing_time_ms;
                                 ar_timestamp := clock o' |}]> responses)
     | Invalid why => raise (ValueError why)
     end)
    (λ e,
       let! _ := modify (emit (Log_error_agent id (exn_str e))) in
       ret (<[id := Failure (exn_str e) id]> responses)).

(** The second loop: the tasks are awaited one after the other, in the
    order they were made. *)
Fixpoint await_tasks (W : World) (request : AgentRequest) (k : nat)
    (tasks : list (string * AgentDescriptor)) (responses : gmap string outcome)
  : M (gmap string outcome) :=
  match tasks with
  | [] => ret responses
  | (id, agent) :: rest =>
      let! responses' := await_one W request k id agent responses in
      await_tasks W request (S k) rest responses'
  end.

Definition _send_to_agents (W : World) (request : AgentRequest) (agent_ids : list string)
  : M (gmap string outcome) :=
  await_tasks W request 0 (make_tasks agent_ids) ∅.

(** ** Broadcast *)

(** [l.remove(x)] for an [x] that is in [l]: the first occurrence goes. *)
Fixpoint list_remove_first (x : nat) (l : list nat) : list nat :=
  match l with
  | [] => []
  | y :: l' => if Nat.eqb x y then l' else y :: list_remove_first x l'
  end.

(** [json.dumps] of the message dict. *)
Definition json_dumps (m : message) : result message :=
  if serializable (msg_data m) then Ok m
  else Raise (TypeError "Object of type datetime is not JSON serializable").

(** The [for connection in self.websocket_connections] loop.  The list
    iterator holds a position [i] into the list object itself, which the
    handler shrinks while the loop runs.  [fuel] bounds the number of
    rounds; [length] of the list is always enough, see
    [broadcast_loop_terminates]. *)
Fixpoint broadcast_loop (W : World) (text : message) (fuel i : nat) (o : Orchestrator)
  : option Orchestrator :=
  match websocket_connections o !! i with
  | None => Some o
  | Some connection =>
      match fuel with
      | O => None
      | S fuel' =>
          if send_text W connection text
          then broadcast_loop W text fuel' (S i) (emit (Send_text connection text true) o)
          else broadcast_loop W text fuel' (S i)
                 (set_websocket_connections (list_remove_first connection)
                    (emit (Send_text connection text false) o))
      end
  end.

Definition _broadcast_update (W : World) (event_type : string) (data : pyobj) : M unit :=
  let! o := get in
  match json_dumps {| msg_type := event_type; msg_data := data; msg_timestamp := clock o |} with
  | Raise e => raise e
  | Ok text =>
      modify (λ o, default o
                (broadcast_loop W text (length (websocket_connections o)) 0 o))
  end.

(** ** Orchestrator *)

Definition RoutingDecision_dict (d : RoutingDecision) : pyobj :=
  PDict [ ("request_id", PStr (request_id d));
          ("selected_agents", PList (PStr <$> selected_agents d));
          ("reasoning", PStr (reasoning d));
          ("confidence", PFloat (confidence d));
          ("timestamp", PDatetime (timestamp d)) ].

Definition AgentResponse_dict (r : AgentResponse) : pyobj :=
  PDict [ ("request_id", PStr (ar_request_id r));
          ("agent_id", PStr (ar_agent_id r));
          ("response", PStr (ar_response r));
          ("metadata", PDict (ar_metadata r));
          ("processing_time_ms", PFloat (inject_Z (ar_processing_time_ms r)));
          ("timestamp", PDatetime (ar_timestamp r)) ].

Definition outcome_dict (x : outcome) : pyobj :=
  match x with
  | Success r => AgentResponse_dict r
  | Failure error agent => PDict [ ("error", PStr error); ("agent_id", PStr agent) ]
  end.

Definition responses_dict (responses : gmap string outcome) : pyobj :=
  PDict ((λ kv, (kv.1, outcome_dict kv.2)) <$> map_to_list responses).

Definition route (W : World) (request : AgentRequest) : M RoutingDecision :=
  let! o := get in
  match strategy o with
  | LLMRouterStrategy => LLMRouterStrategy_route W request
  | RulesRouterStrategy => RulesRouterStrategy_route_M request
  end.

(** [self.active_requests[key][field] = value]: [KeyError] when the key is
    not there. *)
Definition update_record (key : string) (f : RequestRecord → RequestRecord) : M unit :=
  let! o := get in
  match active_requests o !! key with
  | None => raise (KeyError key)
  | Some r => modify (set_active_requests (insert key (f r)))
  end.

Definition set_responses (responses : gmap string outcome) (r : RequestRecord) : RequestRecord :=
  {| rec_request := rec_request r; rec_routing := rec_routing r;
     rec_responses := responses; rec_status := rec_status r |}.

Definition set_status (status : string) (r : RequestRecord) : RequestRecord :=
  {| rec_request := rec_request r; rec_routing := rec_routing r;
     rec_responses := rec_responses r; rec_status := status |}.

(** The dict [process_request] returns. *)
Record ProcessResult := {
  res_request_id : string;
  res_routing : RoutingDecision;
  res_responses : gmap string outcome
}.

Definition process_request (W : World) (request : AgentRequest) : M ProcessResult :=
  let! routing_decision := route W request in
  let! _ := modify (emit (Log_info_routing (req_id request) (selected_agents routing_decision))) in
  let! _ := modify (set_active_requests
                      (insert (req_id request)
                         {| rec_request := request; rec_routing := routing_decision;
                            rec_responses := ∅; rec_status := "processing" |})) in
  let! _ := _broadcast_update W "routing_decision" (RoutingDecision_dict routing_decision) in
  let! responses := _send_to_agents W request (selected_agents routing_decision) in
  let! _ := update_record (req_id request) (set_responses responses) in
  let! _ := update_record (req_id request) (set_status "completed") in
  let! _ := _broadcast_update W "request_completed"
              (PDict [ ("request_id", PStr (req_id request));
                       ("responses", responses_dict responses) ]) in
  ret {| res_request_id := req_id request;
         res_routing := routing_decision;
         res_responses := responses |}.

(** ** API routes *)

(** [POST /route]. *)
Definition route_request (W : World) (request : AgentRequest) (o : Orchestrator)
  : http_answer ProcessResult * Orchestrator :=
  match process_request W request o with
  | (Ok result, o') => (HTTP_200 result, o')
  | (Raise e, o') =>
      (HTTP_error 500 (exn_str e), emit (Log_error_routing (exn_str e)) o')
  end.

(** [GET /requests/{request_id}]. *)
Definition get_request_status (request_id : string) (o : Orchestrator)
  : http_answer RequestRecord :=
  match active_requests o !! request_id with
  | Some r => HTTP_200 r
  | None => HTTP_error 404 "Request not found"
  end.

End Router.

(** [RouterOrchestrator.__init__] and [_get_strategy]. *)
Definition _get_strategy (strategy_name : string) : Strategy :=
  if String.eqb strategy_name "llm" then LLMRouterStrategy else RulesRouterStrategy.

Definition RouterOrchestrator (strategy_name : string) (now : Z) : Orchestrator :=
  {| strategy := _get_strategy strategy_name;
     active_requests := ∅;
     websocket_connections := [];
     clock := now;
     trace := [] |}.

(** [/ws]: a socket that connects is appended to the list; one whose
    client goes away is removed from it.  The pings answered in between do
    not touch the orchestrator. *)
Definition websocket_accept (websocket : nat) (o : Orchestrator) : Orchestrator :=
  set_websocket_connections (λ l, l ++ [websocket]) o.

(** [self.websocket_connections.remove(websocket)] in the handler of
    [WebSocketDisconnect]: [list.remove] raises [ValueError] when the socket
    is not in the list. *)
Definition websocket_disconnect (websocket : nat) : M unit :=
  let! o := get in
  if bool_decide (websocket ∈ websocket_connections o)
  then modify (set_websocket_connections (list_remove_first websocket))
  else raise (ValueError "list.remove(x): x not in list").

(** ** Closed forms used by the proofs *)

(** [agent_id in registry]. *)
Definition registered (registry : list (string * AgentDescriptor)) (id : string) : bool :=
  match registry_get registry id with
  | Some _ => true
  | None => false
  end.

(** What the post of the [k]-th call comes to. *)
Definition posted (W : World) (k : nat) (request : AgentRequest) : http_reply :=
  client_post (AgentRequest_dict request) (http W k).

(** What the second loop of [_send_to_agents] stores for a task, given what
    awaiting it came to, the moment the call started and the moment it
    ended: the [AgentResponse] of the [try], or the error dict of the
    [except]. *)
Definition outcome_of `{FieldValidation} (request : AgentRequest) (id : string)
    (called : result pyobj) (started ended : Z) : outcome :=
  match called with
  | Ok response =>
      match as_str response with
      | Valid text =>
          Success {| ar_request_id := req_id request; ar_agent_id := id;
                     ar_response := text; ar_metadata := [];
                     ar_processing_time_ms := ended - started;
                     ar_timestamp := ended |}
      | Invalid why => Failure why id
      end
  | Raise e => Failure (exn_str e) id
  end.

(** What [await_one] records for a call, read off what the post came to
    ([await_one_closed_form]). *)
Definition recorded `{FieldValidation} (request : AgentRequest) (id : string)
    (agent : AgentDescriptor) (reply : http_reply) (started ended : Z) : outcome :=
  outcome_of request id (response_of agent reply) started ended.

(** The entry every call of an [AgentRequest] ends in: the payload holds a
    [datetime], so the post fails in the encoder. *)
Definition encoding_failure (agent : AgentDescriptor) (id : string) : outcome :=
  Failure ("Agent " +:+ agent_id agent
           +:+ " error: Object of type datetime is not JSON serializable") id.




(** The effects of that round on the trace. *)
Definition round_events (id : string) (agent : AgentDescriptor) (x : outcome)
    (started ended : Z) : list event :=
  [Post_started (endpoint agent +:+ "/process") started;
   Post_finished (endpoint agent +:+ "/process") ended]
  ++ match x with
     | Success _ => []
     | Failure e _ => [Log_error_agent id e]
     end.

Definition after_round (W : World) (k : nat) (events : list event) (o : Orchestrator)
  : Orchestrator :=
  {| strategy := strategy o; active_requests := active_requests o;
     websocket_connections := websocket_connections o;
     clock := clock o + http_took W k; trace := trace o ++ events |}.

(** The time the calls [k], [k+1], ..., [k+n-1] take when added up. *)
Fixpoint sum_took (W : World) (k n : nat) : Z :=
  match n with
  | O => 0
  | S n' => http_took W k + sum_took W (S k) n'
  end.

(** ** Reading the trace *)

Definition is_generate (e : event) : bool :=
  match e with Generate_content => true | _ => false end.

Definition is_post_started (e : event) : bool :=
  match e with Post_started _ _ => true | _ => false end.

(** How many times the generative model was called. *)
Definition model_calls (t : list event) : nat := length (List.filter is_generate t).

(** How many expert calls were started. *)
Definition posts_started (t : list event) : nat := length (List.filter is_post_started t).

(** The connections a message was delivered to. *)
Fixpoint delivered_to (t : list event) : list nat :=
  match t with
  | [] => []
  | Send_text c _ true :: t' => c :: delivered_to t'
  | _ :: t' => delivered_to t'
  end.

(** The connections a send was attempted on. *)
Fixpoint attempted_on (t : list event) : list nat :=
  match t with
  | [] => []
  | Send_text c _ _ :: t' => c :: attempted_on t'
  | _ :: t' => attempted_on t'
  end.

(** ** Sample inputs *)

Definition sample_request : AgentRequest :=
  {| req_id := "r1"; req_type := GENERAL; req_content := "hello there";
     req_metadata := []; req_timestamp := 0 |}.

Definition fraud_request : AgentRequest :=
  {| req_id := "r1"; req_type := FRAUD; req_content := "check this transaction";
     req_metadata := []; req_timestamp := 5 |}.

(** A world where everything fails: the model call raises, every expert
    call times out after a second, and only connection 2 takes sends. *)
Definition failing_world : World :=
  {| llm := Generate_raised "503 model unavailable";
     llm_took := 120;
     http := λ _, Post_timeout;
     http_took := λ _, 1000;
     send_text := λ c _, Nat.eqb c 2 |}.

(** A world where the model answers with a JSON array. *)
Definition array_world : World :=
  {| llm := Generate_returned (inr (PList []));
     llm_took := 120;
     http := λ _, Post_timeout;
     http_took := λ _, 1000;
     send_text := λ _ _, true |}.

(** A world where the model answers with a JSON object whose confidence is
    a word. *)
Definition vague_world : World :=
  {| llm := Generate_returned
              (inr (PDict [("selected_agents", PList [PStr "esg-agent"]);
                           ("confidence", PStr "high")]));
     llm_took := 120;
     http := λ _, Post_timeout;
     http_took := λ _, 1000;
     send_text := λ _ _, true |}.

(** A world where the model answers with a JSON object that only gives a
    reasoning, and every expert answers in a second. *)
Definition terse_world : World :=
  {| llm := Generate_returned (inr (PDict [("reasoning", PStr "nothing fits")]));
     llm_took := 120;
     http := λ _, Post_response None
                    (inr (PDict [("response", PStr "ok"); ("details", PDict [])]));
     http_took := λ _, 1000;
     send_text := λ _ _, true |}.

Definition llm_orchestrator : Orchestrator := RouterOrchestrator "llm" 0.
Definition rules_orchestrator : Orchestrator := RouterOrchestrator "rules" 0.


(** An orchestrator with two observers connected, 1 before 2. *)
Definition two_observers : Orchestrator :=
  websocket_accept 2 (websocket_accept 1 rules_orchestrator).

(** The payload of a [request_completed] event with no responses. *)
Definition completed_nothing : pyobj :=
  PDict [("request_id", PStr "r1"); ("responses", PDict [])].

Definition not_serializable : exn :=
  TypeError "Object of type datetime is not JSON serializable".

(** ** More of the router *)

(** The connections a send failed on. *)
Fixpoint failed_on (t : list event) : list nat :=
  match t with
  | [] => []
  | Send_text c _ false :: t' => c :: failed_on t'
  | _ :: t' => failed_on t'
  end.

(** The [agent_id] an entry of the [responses] dict carries. *)
Definition outcome_agent_id (x : outcome) : string :=
  match x with
  | Success r => ar_agent_id r
  | Failure _ agent => agent
  end.

(** The payload of the [request_completed] event. *)
Definition completed_payload (request : AgentRequest) (responses : gmap string outcome)
  : pyobj :=
  PDict [ ("request_id", PStr (req_id request));
          ("responses", responses_dict responses) ].

(** [LLMRouterStrategy._get_agent_loads]: [hash] is the built-in [hash] on
    strings, which differs from process to process; [%] with a positive
    right operand is [Z.modulo]. *)
Definition _get_agent_loads (hash : string → Z) (registry : list (string * AgentDescriptor))
  : list (string * Z) :=
  (λ kv, (kv.1, 30 + hash kv.1 `mod` 40)) <$> registry.

(** The service taking requests one after the other, each with the world it
    meets: [POST /route] again and again on the one orchestrator. *)
Fixpoint serve `{FieldValidation} (registry : list (string * AgentDescriptor))
    (requests : list (World * AgentRequest)) (o : Orchestrator) : Orchestrator :=
  match requests with
  | [] => o
  | (W, request) :: rest => serve registry rest (route_request registry W request o).2
  end.

(** * The fraud agent ([fraud_agent/main.py])

    The scoring of [FraudDetector], from the indicators and patterns the
    model reported to the verdict.  A [float] is the rational it holds. *)

Module FraudAgent.
Local Open Scope Q_scope.

Inductive FraudRiskLevel := LOW | MEDIUM | HIGH | CRITICAL.

Record FraudIndicators := {
  velocity_check : bool;
  location_anomaly : bool;
  amount_anomaly : bool;
  merchant_risk : bool;
  pattern_match : bool;
  device_fingerprint : bool
}.

(** [self.known_patterns]. *)
Definition known_patterns : list string :=
  [ "card_present_followed_by_not_present";
    "rapid_small_transactions";
    "geographic_impossibility";
    "unusual_merchant_sequence";
    "dormant_account_sudden_activity" ].

(** [p in self.known_patterns] for an item of the decoded reply: only a
    string can equal one of the names. *)
Definition is_known (p : pyobj) : option string :=
  match p with
  | PStr s => if bool_decide (s ∈ known_patterns) then Some s else None
  | _ => None
  end.

(** [_detect_patterns]: the patterns returned, and the error logged if
    any.  [reply] is what the model call and [json.loads] come to. *)
Definition _detect_patterns (reply : llm_reply) : list string * option string :=
  match reply with
  | Generate_raised e => ([], Some ("Pattern detection failed: " +:+ e))
  | Generate_returned (inl e) => ([], Some ("Pattern detection failed: " +:+ e))
  | Generate_returned (inr (PList patterns)) => (omap is_known patterns, None)
  | Generate_returned (inr _) => ([], None)
  end.

Definition _calculate_risk_score (indicators : FraudIndicators) (patterns : list string) : Q :=
  let score : Q := 0 in
  let score := if velocity_check indicators then score + 20 else score in
  let score := if location_anomaly indicators then score + 25 else score in
  let score := if amount_anomaly indicators then score + 15 else score in
  let score := if merchant_risk indicators then score + 15 else score in
  let score := if pattern_match indicators then score + 30 else score in
  let score := if device_fingerprint indicators then score + 20 else score in
  let score := score + inject_Z (Z.of_nat (length patterns)) * 10 in
  Qmin 100 score.

(** [_determine_fraud_status]: the verdict and its confidence.  The
    confidence is given as the exact value of the expression, which the
    float arithmetic of the code rounds. *)
Definition _determine_fraud_status (risk_score : Q) (indicators : FraudIndicators)
    (patterns : list string) : bool * Q :=
  let critical_indicators :=
    [ pattern_match indicators;
      location_anomaly indicators && velocity_check indicators;
      (2 <=? length patterns)%nat ] in
  if existsb id critical_indicators || Qle_bool 70 risk_score
  then (true, Qmin 0.95 (risk_score / 100 + 0.2))
  else if Qle_bool 50 risk_score
  then (true, risk_score / 100)
  else (false, 1 - risk_score / 100).

Definition _get_risk_level (risk_score : Q) : FraudRiskLevel :=
  if Qle_bool 80 risk_score then CRITICAL
  else if Qle_bool 60 risk_score then HIGH
  else if Qle_bool 30 risk_score then MEDIUM
  else LOW.

Definition _get_recommended_action (is_fraudulent : bool) (risk_level : FraudRiskLevel)
  : string :=
  if is_fraudulent then
    match risk_level with
    | CRITICAL => "BLOCK - Immediate transaction denial and account review required"
    | HIGH => "BLOCK - Transaction denied, customer verification required"
    | _ => "REVIEW - Manual review required before processing"
    end
  else
    match risk_level with
    | MEDIUM => "MONITOR - Allow with enhanced monitoring"
    | _ => "APPROVE - Transaction can proceed normally"
    end.

Definition _suggest_additional_checks (risk_level : FraudRiskLevel)
    (indicators : FraudIndicators) : list string :=
  let checks : list string := [] in
  let checks :=
    match risk_level with
    | HIGH | CRITICAL =>
        checks ++ ["Two-factor authentication"; "Identity verification";
                   "Account activity review"]
    | _ => checks
    end in
  let checks := if device_fingerprint indicators
                then checks ++ ["Device verification"] else checks in
  let checks := if location_anomaly indicators
                then checks ++ ["Location verification"] else checks in
  let checks := if velocity_check indicators
                then checks ++ ["Transaction history analysis"] else checks in
  checks.

(** The weights of the indicators that are set, added up. *)
Definition indicators_weight (indicators : FraudIndicators) : Z :=
  ((if velocity_check indicators then 20 else 0)
   + (if location_anomaly indicators then 25 else 0)
   + (if amount_anomaly indicators then 15 else 0)
   + (if merchant_risk indicators then 15 else 0)
   + (if pattern_match indicators then 30 else 0)
   + (if device_fingerprint indicators then 20 else 0))%Z.

(** One set of indicators has at least the flags of another. *)
Definition at_least (a b : FraudIndicators) : Prop :=
  (velocity_check b = true → velocity_check a = true)
  ∧ (location_anomaly b = true → location_anomaly a = true)
  ∧ (amount_anomaly b = true → amount_anomaly a = true)
  ∧ (merchant_risk b = true → merchant_risk a = true)
  ∧ (pattern_match b = true → pattern_match a = true)
  ∧ (device_fingerprint b = true → device_fingerprint a = true).

Definition level_rank (l : FraudRiskLevel) : nat :=
  match l with LOW => 0 | MEDIUM => 1 | HIGH => 2 | CRITICAL => 3 end%nat.

End FraudAgent.

(** * The ESG agent ([esg_agent/main.py])

    What [ESGAnalyzer] derives from the three scores the model reported. *)

Module ESGAgent.
Local Open Scope Q_scope.

Inductive ESGRating := AAA | AA | A | BBB | BB | B | CCC.

(** A [float] as a score holds it.  The scores come out of [json.loads] on
    the model's text, which also reads [NaN], [Infinity] and [-Infinity],
    and the [score: float] fields take them as they are. *)
Inductive pyfloat :=
| Finite (q : Q)
| Infinity (negative : bool)
| NaN.

Record EnvironmentalScore := {
  env_score : pyfloat;
  carbon_footprint : string;
  renewable_energy_usage : pyfloat;
  waste_management : string;
  water_usage : string;
  biodiversity_impact : string
}.

Record SocialScore := {
  soc_score : pyfloat;
  employee_welfare : string;
  diversity_inclusion : string;
  community_impact : string;
  human_rights : string;
  customer_satisfaction : string
}.

Record GovernanceScore := {
  gov_score : pyfloat;
  board_structure : string;
  executive_compensation : string;
  shareholder_rights : string;
  transparency : string;
  ethics_compliance : string
}.

(** [a < b] on two finite floats. *)
Definition Qlt_bool (a b : Q) : bool := negb (Qle_bool b a).

(** [x < c] and [x > c] for a score [x] and a threshold [c] written in the
    code: every comparison with a NaN is false. *)
Definition float_lt (x : pyfloat) (c : Q) : bool :=
  match x with
  | Finite q => Qlt_bool q c
  | Infinity negative => negative
  | NaN => false
  end.

Definition float_gt (x : pyfloat) (c : Q) : bool :=
  match x with
  | Finite q => Qlt_bool c q
  | Infinity negative => negb negative
  | NaN => false
  end.

(** [_calculate_rating], on the finite scores. *)
Definition _calculate_rating (score : Q) : ESGRating :=
  if Qle_bool 90 score then AAA
  else if Qle_bool 80 score then AA
  else if Qle_bool 70 score then A
  else if Qle_bool 60 score then BBB
  else if Qle_bool 50 score then BB
  else if Qle_bool 40 score then B
  else CCC.

Definition _identify_risks (request : AgentRequest) (environmental : EnvironmentalScore)
    (social : SocialScore) (governance : GovernanceScore) : list string :=
  let risks : list string := [] in
  let risks := if float_lt (env_score environmental) 50
               then risks ++ ["High environmental risk - potential regulatory penalties"]
               else risks in
  let risks := if float_lt (soc_score social) 50
               then risks ++ ["Social license to operate at risk"] else risks in
  let risks := if float_lt (gov_score governance) 50
               then risks ++ ["Governance weaknesses may impact investor confidence"]
               else risks in
  let risks := if float_lt (env_score environmental) 70
               then risks ++ ["Climate transition risk"] else risks in
  let risks := if float_lt (soc_score social) 70
               then risks ++ ["Talent retention challenges"] else risks in
  let risks := if float_lt (gov_score governance) 70
               then risks ++ ["Compliance and regulatory risk"] else risks in
  risks.

Definition _identify_opportunities (request : AgentRequest)
    (environmental : EnvironmentalScore) (social : SocialScore)
    (governance : GovernanceScore) : list string :=
  let opportunities : list string := [] in
  let opportunities := if float_gt (env_score environmental) 70
                       then opportunities ++ ["Green financing opportunities"]
                       else opportunities in
  let opportunities := if float_gt (soc_score social) 70
                       then opportunities ++ ["Strong employer brand advantage"]
                       else opportunities in
  let opportunities := if float_gt (gov_score governance) 70
                       then opportunities ++ ["Attractive to ESG-focused investors"]
                       else opportunities in
  opportunities.

Definition _generate_recommendations (environmental : EnvironmentalScore)
    (social : SocialScore) (governance : GovernanceScore) (risks : list string)
  : list string :=
  let recommendations : list string := [] in
  let recommendations :=
    if float_lt (env_score environmental) 70
    then recommendations ++ ["Develop science-based emissions targets";
                             "Increase renewable energy adoption"]
    else recommendations in
  let recommendations :=
    if float_lt (soc_score social) 70
    then recommendations ++ ["Enhance diversity and inclusion programs";
                             "Strengthen supply chain due diligence"]
    else recommendations in
  let recommendations :=
    if float_lt (gov_score governance) 70
    then recommendations ++ ["Improve board independence and diversity";
                             "Enhance transparency in reporting"]
    else recommendations in
  recommendations.

Definition rating_rank (r : ESGRating) : nat :=
  match r with
  | CCC => 0 | B => 1 | BB => 2 | BBB => 3 | A => 4 | AA => 5 | AAA => 6
  end%nat.

(** A score that is a number at or above [c], be it [Infinity]. *)
Definition at_or_above (c : Q) (x : pyfloat) : Prop :=
  match x with
  | Finite q => c <= q
  | Infinity negative => negative = false
  | NaN => False
  end.

(** A score that is not a number. *)
Definition is_nan (x : pyfloat) : Prop :=
  match x with NaN => True | _ => False end.

End ESGAgent.

(** * Properties *)

(** ** Text *)

(** [w in s] says that [w] sits between some prefix and some suffix of [s]. *)
Lemma starts_with_app (w s : string) :
  starts_with w s = true ↔ ∃ suf, s = w +:+ suf.
Proof.
  revert s. induction w as [| a w IH]; intros s; simpl.
  - split; [intros _; exists s; reflexivity | reflexivity].
  - destruct s as [| b s].
    + split; [discriminate | intros [suf H]; discriminate].
    + rewrite andb_true_iff, IH. split.
      * intros [Hab [suf ->]]. apply Ascii.eqb_eq in Hab as ->. by exists suf.
      * intros [suf H]. injection H as -> ->. split; [apply Ascii.eqb_refl | by exists suf].
Qed.

Lemma str_in_occurrence (w s : string) :
  str_in w s = true ↔ ∃ pre suf, s = pre +:+ w +:+ suf.
Proof.
  induction s as [| b s IH]; simpl.
  - rewrite orb_false_r, starts_with_app. split.
    + intros [suf H]. exists "", suf. exact H.
    + intros [pre [suf H]]. destruct pre; [by exists suf | discriminate].
  - rewrite orb_true_iff, starts_with_app, IH. split.
    + intros [[suf H] | [pre [suf H]]].
      * exists "", suf. exact H.
      * exists (String b pre), suf. simpl. by rewrite H.
    + intros [pre [suf H]]. destruct pre as [| c pre]; simpl in H.
      * left. by exists suf.
      * right. injection H as _ ->. by exists pre, suf.
Qed.

(** Ignoring the letter case is comparing the lowered texts. *)
Lemma starts_with_lower (w s : string) :
  starts_with (lower w) (lower s) = ci_starts_with w s.
Proof.
  revert s. induction w as [| a w IH]; intros s; [reflexivity |].
  destruct s as [| b s]; [reflexivity |]. simpl. by rewrite IH.
Qed.

Lemma str_in_lower (w s : string) :
  str_in (lower w) (lower s) = ci_occurs w s.
Proof.
  induction s as [| b s IH].
  - simpl. by rewrite <- (starts_with_lower w "").
  - cbn [lower str_in ci_occurs]. rewrite <- IH.
    by rewrite <- (starts_with_lower w (String b s)).
Qed.

(** So a keyword occurs in a text, letter case ignored, when its lowered
    form sits between a prefix and a suffix of the lowered text. *)
Lemma ci_occurs_occurrence (w s : string) :
  ci_occurs w s = true ↔ ∃ pre suf, lower s = pre +:+ lower w +:+ suf.
Proof. rewrite <- str_in_lower. apply str_in_occurrence. Qed.

Lemma any_word_in_lower (words : list string) (s : string) :
  Forall (λ w, lower w = w) words →
  any_word_in words (lower s) = existsb (λ kw, ci_occurs kw s) words.
Proof.
  unfold any_word_in. induction 1 as [| w words Hw _ IH]; [reflexivity |].
  simpl. by rewrite IH, <- str_in_lower, Hw.
Qed.

(** ** Rule-based strategy *)

Example rules_loan_and_fraud :
  selected_agents
    (RulesRouterStrategy_route
       {| req_id := "r1"; req_type := GENERAL;
          req_content := "Is this LOAN application a Fraud?";
          req_metadata := []; req_timestamp := 0 |} 7)
  = ["credit-agent"; "fraud-agent"].
Proof. reflexivity. Qed.

Example rules_no_keyword :
  selected_agents
    (RulesRouterStrategy_route
       {| req_id := "r2"; req_type := GENERAL; req_content := "hello there";
          req_metadata := []; req_timestamp := 0 |} 7)
  = ["credit-agent"].
Proof. reflexivity. Qed.

Example rules_category_wins_over_content :
  selected_agents
    (RulesRouterStrategy_route
       {| req_id := "r3"; req_type := FRAUD; req_content := "loan score esg";
          req_metadata := []; req_timestamp := 0 |} 7)
  = ["fraud-agent"].
Proof. reflexivity. Qed.

Lemma rules_route_selected (request : AgentRequest) (now : Z) :
  selected_agents (RulesRouterStrategy_route request now) = spec_selected request.
Proof.
  unfold RulesRouterStrategy_route, spec_selected.
  destruct (req_type request); try reflexivity.
  rewrite !any_word_in_lower by (repeat constructor).
  cbn [specialists AGENT_REGISTRY List.map snd List.filter].
  unfold spec_hit. cbn [agent_type spec_keywords String.eqb Ascii.eqb Bool.eqb].
  cbv iota.
  destruct (existsb _ ["credit"; "loan"; "score"]),
           (existsb _ ["fraud"; "suspicious"; "anomaly"]),
           (existsb _ ["esg"; "environmental"; "sustainability"]);
    reflexivity.
Qed.


Lemma rules_route_confidence (request : AgentRequest) (now : Z) :
  confidence (RulesRouterStrategy_route request now) = 0.75%Q.
Proof. unfold RulesRouterStrategy_route. by destruct (req_type request). Qed.

Lemma rules_route_selected_nonempty (request : AgentRequest) (now : Z) :
  selected_agents (RulesRouterStrategy_route request now) ≠ [].
Proof.
  unfold RulesRouterStrategy_route.
  destruct (req_type request); try discriminate.
  destruct (any_word_in _ _), (any_word_in _ _), (any_word_in _ _); discriminate.
Qed.

(** C1. The rule-based strategy selects what its reference definition
    selects: for a credit, fraud or esg request the one agent registered for
    that category; for a general request every specialist one of whose
    keywords occurs in the content, letter case ignored, in registry order,
    and the default agent when none does.  Its confidence is always 0.75. *)
Theorem C1_rules_route_is_reference (request : AgentRequest) (now : Z) :
  selected_agents (RulesRouterStrategy_route request now) = spec_selected request
  ∧ confidence (RulesRouterStrategy_route request now) = spec_confidence.
Proof.
  split; [apply rules_route_selected | apply rules_route_confidence].
Qed.

(** ** Running a computation *)

Ltac run := unfold bind, ret, get, modify, raise, try_except; simpl.

(** ** Decoded JSON can be encoded *)

Lemma to_py_serializable : ∀ j : json, serializable (to_py j) = true.
Proof.
  fix IH 1. intros [| b | n | q | s | l | d]; simpl; try reflexivity.
  - induction l as [| x l IHl]; simpl; [reflexivity |]. by rewrite IH, IHl.
  - induction d as [| [k x] d IHd]; simpl; [reflexivity |]. by rewrite IH, IHd.
Qed.

Lemma metadata_dict_serializable (request : AgentRequest) :
  serializable (metadata_dict request) = true.
Proof. apply to_py_serializable. Qed.

(** Building the prompt never raises: the metadata of a request is decoded
    JSON. *)
Lemma create_routing_prompt_returns (request : AgentRequest) :
  _create_routing_prompt request = Ok tt.
Proof. unfold _create_routing_prompt. by rewrite metadata_dict_serializable. Qed.

Lemma model_calls_app (t1 t2 : list event) :
  model_calls (t1 ++ t2) = (model_calls t1 + model_calls t2)%nat.
Proof. unfold model_calls. by rewrite List.filter_app, length_app. Qed.

Lemma posts_started_app (t1 t2 : list event) :
  posts_started (t1 ++ t2) = (posts_started t1 + posts_started t2)%nat.
Proof. unfold posts_started. by rewrite List.filter_app, length_app. Qed.

(** ** Model-based strategy *)

Section LLM.
Context {V : FieldValidation}.

(** The handler of the [try]: log, then the rule-based strategy. *)
Lemma llm_route_failed (W : World) (request : AgentRequest) (o : Orchestrator) :
  call_failed (llm W) →
  ∃ e, LLMRouterStrategy_route W request o =
       RulesRouterStrategy_route_M request
         (emit (Log_error_llm e) (advance_clock (llm_took W) (emit Generate_content o))).
Proof.
  unfold LLMRouterStrategy_route. rewrite create_routing_prompt_returns. intros Hfail.
  destruct (llm W) as [e | [e | v]] eqn:Hllm; simpl in Hfail; [| | done];
    exists e; run; reflexivity.
Qed.

(** C2. When the generative call raises or its output does not parse as
    JSON, the model-based strategy returns the very decision the rule-based
    strategy produces for that request at that moment; the model was called
    once and not again, and the returned value is a plain decision: the
    failure only shows in the log. *)
Theorem C2_failed_model_call_gives_rules_decision
    (W : World) (request : AgentRequest) (o : Orchestrator) :
  call_failed (llm W) →
  ∃ d o' e,
    LLMRouterStrategy_route W request o = (Ok d, o')
    ∧ RulesRouterStrategy_route_M request o' = (Ok d, o')
    ∧ d = RulesRouterStrategy_route request (clock o + llm_took W)
    ∧ trace o' = trace o ++ [Generate_content; Log_error_llm e]
    ∧ model_calls (trace o') = S (model_calls (trace o))
    ∧ active_requests o' = active_requests o
    ∧ websocket_connections o' = websocket_connections o.
Proof.
  intros Hfail. destruct (llm_route_failed W request o Hfail) as [e ->].
  eexists _, _, e. run. repeat split.
  - simpl. by rewrite <- app_assoc.
  - simpl. rewrite <- app_assoc, model_calls_app.
    change (model_calls ([Generate_content] ++ [Log_error_llm e])) with 1%nat. lia.
Qed.

End LLM.

Section LLM_defaults.
Context {V : FieldValidation}.
Variable registry : list (string * AgentDescriptor).

Lemma dict_get_missing (d : list (string * pyobj)) (key : string) (default : pyobj) :
  dict_has d key = false → dict_get d key default = default.
Proof.
  induction d as [| [k v] d IH]; simpl; [done |].
  destruct (String.eqb k key); simpl; [discriminate | exact IH].
Qed.

Lemma send_to_nobody (W : World) (request : AgentRequest) (o : Orchestrator) :
  _send_to_agents registry W request [] o = (Ok ∅, o).
Proof. reflexivity. Qed.

(** C8. The rule-based strategy never returns an empty selection; a general
    request in which no keyword occurs goes to ["credit-agent"]; and so the
    decision the model-based strategy falls back to is never empty
    either. *)
Theorem C8_rules_selection_never_empty
    (W : World) (request : AgentRequest) (now : Z) (o : Orchestrator) :
  selected_agents (RulesRouterStrategy_route request now) ≠ []
  ∧ (req_type request = GENERAL →
     List.filter (spec_hit (req_content request)) specialists = [] →
     selected_agents (RulesRouterStrategy_route request now) = ["credit-agent"])
  ∧ (call_failed (llm W) →
     ∃ d o', LLMRouterStrategy_route W request o = (Ok d, o')
             ∧ selected_agents d ≠ []).
Proof.
  split; [apply rules_route_selected_nonempty |]. split.
  - intros Hgeneral Hnone. rewrite rules_route_selected.
    unfold spec_selected. by rewrite Hgeneral, Hnone.
  - intros Hfail. destruct (llm_route_failed W request o Hfail) as [e ->].
    eexists _, _. split; [reflexivity |]. apply rules_route_selected_nonempty.
Qed.

(** C9, as the code has it.  When the generative call returns and its
    output parses as a JSON object whose fields, a missing one replaced by
    its default, pass the validation of [RoutingDecision], the model-based
    strategy does not fall back: it returns the validated fields, and for
    each missing field a fixed default, [[]] for [selected_agents], the
    empty string for [reasoning] and 0.8 for [confidence].  An object
    without [selected_agents] so gives an empty selection, for which the
    dispatch returns the empty mapping, and the default confidence 0.8 is
    not the 0.75 of the rule-based decision.  When the output parses as JSON
    but is not an object, or is an object one of whose fields fails
    validation, the strategy falls back to the rule-based decision and logs
    the failure. *)
Theorem C9_parsed_object_fields_and_defaults
    (W : World) (request : AgentRequest) (o : Orchestrator) :
  let o1 := advance_clock (llm_took W) (emit Generate_content o) in
  (∀ data agents why conf,
     llm W = Generate_returned (inr (PDict data)) →
     as_str_list (dict_get data "selected_agents" (PList [])) = Valid agents →
     as_str (dict_get data "reasoning" (PStr "")) = Valid why →
     as_float (dict_get data "confidence" (PFloat 0.8)) = Valid conf →
     LLMRouterStrategy_route W request o =
       (Ok {| request_id := req_id request; selected_agents := agents;
              reasoning := why; confidence := conf; timestamp := clock o1 |}, o1)
     ∧ (dict_has data "selected_agents" = false →
        agents = [] ∧ _send_to_agents registry W request agents o1 = (Ok ∅, o1))
     ∧ (dict_has data "reasoning" = false → why = "")
     ∧ (dict_has data "confidence" = false →
        conf = 0.8%Q
        ∧ ¬ (conf == confidence (RulesRouterStrategy_route request (clock o1)))%Q))
  ∧ (∀ v,
       llm W = Generate_returned (inr v) →
       (∀ data, v ≠ PDict data)
       ∨ (∃ data why, v = PDict data
                      ∧ decision_from request data (clock o1) = Invalid why) →
       ∃ e, LLMRouterStrategy_route W request o =
              (Ok (RulesRouterStrategy_route request (clock o1)),
               emit (Log_error_llm e) o1)).
Proof.
  intros o1. split.
  - intros data agents why conf Hllm Hagents Hwhy Hconf. split; [| split; [| split]].
    + unfold LLMRouterStrategy_route. rewrite create_routing_prompt_returns.
      run. rewrite Hllm. simpl.
      unfold decision_from. by rewrite Hagents, Hwhy, Hconf.
    + intros Hmissing. rewrite dict_get_missing in Hagents by done.
      rewrite (as_str_list_ok []) in Hagents. injection Hagents as <-.
      split; [done | apply send_to_nobody].
    + intros Hmissing. rewrite dict_get_missing in Hwhy by done.
      rewrite as_str_ok in Hwhy. by injection Hwhy as <-.
    + intros Hmissing. rewrite dict_get_missing in Hconf by done.
      rewrite as_float_ok in Hconf. injection Hconf as <-.
      split; [done |]. by rewrite rules_route_confidence.
  - intros v Hllm Hbad. unfold LLMRouterStrategy_route, RulesRouterStrategy_route_M.
    rewrite create_routing_prompt_returns.
    run. rewrite Hllm.
    destruct Hbad as [Hnot | (data & why & -> & Hinvalid)].
    + destruct v; try (eexists; reflexivity). by destruct (Hnot d).
    + simpl in *. fold o1. unfold o1 in Hinvalid. simpl in Hinvalid.
      rewrite Hinvalid. eexists. reflexivity.
Qed.

End LLM_defaults.

Lemma C2_witness :
  call_failed (llm failing_world)
  ∧ ∃ d o' e,
      LLMRouterStrategy_route failing_world sample_request llm_orchestrator = (Ok d, o')
      ∧ RulesRouterStrategy_route_M sample_request o' = (Ok d, o')
      ∧ d = RulesRouterStrategy_route sample_request
              (clock llm_orchestrator + llm_took failing_world)
      ∧ trace o' = trace llm_orchestrator ++ [Generate_content; Log_error_llm e]
      ∧ model_calls (trace o') = S (model_calls (trace llm_orchestrator))
      ∧ active_requests o' = active_requests llm_orchestrator
      ∧ websocket_connections o' = websocket_connections llm_orchestrator.
Proof.
  split; [exact I |].
  apply (C2_failed_model_call_gives_rules_decision
           failing_world sample_request llm_orchestrator).
  exact I.
Defined.

Lemma C8_witness :
  (req_type sample_request = GENERAL
   ∧ List.filter (spec_hit (req_content sample_request)) specialists = []
   ∧ call_failed (llm failing_world))
  ∧ selected_agents (RulesRouterStrategy_route sample_request 7) = ["credit-agent"]
  ∧ ∃ d o', LLMRouterStrategy_route failing_world sample_request llm_orchestrator = (Ok d, o')
            ∧ selected_agents d ≠ [].
Proof.
  pose proof (C8_rules_selection_never_empty
                failing_world sample_request 7 llm_orchestrator) as (_ & Hdefault & Hfallback).
  split; [repeat split |]. split.
  - apply Hdefault; reflexivity.
  - apply Hfallback. exact I.
Defined.

Lemma C9_witness :
  (llm terse_world = Generate_returned (inr (PDict [("reasoning", PStr "nothing fits")]))
   ∧ dict_has [("reasoning", PStr "nothing fits")] "selected_agents" = false
   ∧ dict_has [("reasoning", PStr "nothing fits")] "confidence" = false)
  ∧ LLMRouterStrategy_route terse_world sample_request llm_orchestrator =
      (Ok {| request_id := "r1"; selected_agents := [];
             reasoning := "nothing fits"; confidence := 0.8; timestamp := 120 |},
       advance_clock 120 (emit Generate_content llm_orchestrator))
  ∧ _send_to_agents AGENT_REGISTRY terse_world sample_request []
      (advance_clock 120 (emit Generate_content llm_orchestrator))
    = (Ok ∅, advance_clock 120 (emit Generate_content llm_orchestrator))
  ∧ ∃ e, LLMRouterStrategy_route array_world sample_request llm_orchestrator =
           (Ok (RulesRouterStrategy_route sample_request 120),
            emit (Log_error_llm e)
              (advance_clock 120 (emit Generate_content llm_orchestrator))).
Proof.
  pose proof (C9_parsed_object_fields_and_defaults AGENT_REGISTRY
                terse_world sample_request llm_orchestrator) as [Hobject _].
  destruct (Hobject [("reasoning", PStr "nothing fits")] [] "nothing fits" 0.8%Q
              eq_refl eq_refl eq_refl eq_refl) as (Hroute & Hagents & _).
  pose proof (C9_parsed_object_fields_and_defaults AGENT_REGISTRY
                array_world sample_request llm_orchestrator) as [_ Hother].
  split; [repeat split |]. split; [exact Hroute |]. split.
  - apply Hagents. reflexivity.
  - apply (Hother (PList []) eq_refl). left. discriminate.
Defined.

(** C9, as it is worded, fails twice over.  An output that parses as JSON
    but is not an object (here the array [[]]) makes [.get] raise; and an
    object with a field that does not pass validation (here a confidence
    that is the word ["high"]) makes [RoutingDecision(...)] raise.  Either
    way the strategy falls back to the rule-based decision with its
    confidence 0.75, logging the failure, and what the object selected is
    lost. *)
Lemma C9_counterexample_parsed_json_falls_back :
  (llm array_world = Generate_returned (inr (PList []))
   ∧ LLMRouterStrategy_route array_world sample_request llm_orchestrator =
       (Ok (RulesRouterStrategy_route sample_request 120),
        emit (Log_error_llm "'list' object has no attribute 'get'")
          (advance_clock 120 (emit Generate_content llm_orchestrator))))
  ∧ (llm vague_world
     = Generate_returned (inr (PDict [("selected_agents", PList [PStr "esg-agent"]);
                                      ("confidence", PStr "high")]))
     ∧ ∃ e, LLMRouterStrategy_route vague_world sample_request llm_orchestrator =
              (Ok (RulesRouterStrategy_route sample_request 120),
               emit (Log_error_llm e)
                 (advance_clock 120 (emit Generate_content llm_orchestrator))))
  ∧ confidence (RulesRouterStrategy_route sample_request 120) = 0.75%Q
  ∧ selected_agents (RulesRouterStrategy_route sample_request 120) = ["credit-agent"].
Proof. repeat split. eexists. reflexivity. Qed.

(** ** Dispatch *)

Section Dispatch.
Context {V : FieldValidation}.
Variable registry : list (string * AgentDescriptor).

Lemma make_tasks_ids (ids : list string) :
  (make_tasks registry ids).*1 = List.filter (registered registry) ids.
Proof.
  induction ids as [| id ids IH]; [reflexivity |].
  cbn [make_tasks List.filter]. unfold registered at 1.
  destruct (registry_get registry id); [rewrite fmap_cons |]; by rewrite IH.
Qed.

Lemma await_one_closed_form (W : World) (request : AgentRequest) (k : nat)
    (id : string) (agent : AgentDescriptor) (responses : gmap string outcome)
    (o : Orchestrator) :
  let x := recorded request id agent (posted W k request)
             (clock o) (clock o + http_took W k) in
  await_one W request k id agent responses o =
    (Ok (<[id := x]> responses),
     after_round W k (round_events id agent x (clock o) (clock o + http_took W k)) o).
Proof.
  unfold await_one, _call_agent, recorded, outcome_of, posted, after_round, round_events.
  run.
  destruct (response_of agent (client_post (AgentRequest_dict request) (http W k)))
    as [response | e]; simpl;
    try destruct (as_str _); unfold emit, advance_clock; simpl;
    rewrite <- ?app_assoc; reflexivity.
Qed.

(** The payload of a call holds the [datetime] of the request's
    [timestamp]: no post of an [AgentRequest] gets past the encoder. *)
Lemma AgentRequest_dict_unserializable (request : AgentRequest) :
  serializable (AgentRequest_dict request) = false.
Proof.
  unfold AgentRequest_dict. cbn [serializable forallb].
  by rewrite metadata_dict_serializable.
Qed.

Lemma posted_fails (W : World) (k : nat) (request : AgentRequest) :
  posted W k request = Post_failed "Object of type datetime is not JSON serializable".
Proof.
  unfold posted, client_post. by rewrite AgentRequest_dict_unserializable.
Qed.

Lemma recorded_posted (W : World) (request : AgentRequest) (k : nat)
    (id : string) (agent : AgentDescriptor) (started ended : Z) :
  recorded request id agent (posted W k request) started ended
  = encoding_failure agent id.
Proof. by rewrite posted_fails. Qed.

(** What the [try] of [_call_agent] makes of a failed call. *)
Lemma response_of_failed (agent : AgentDescriptor) (reply : http_reply) :
  expert_call_failed reply → ∃ msg, response_of agent reply = Raise (Exception msg).
Proof.
  destruct reply as [| e | [e1 |] [e2 | v]]; try destruct v; simpl; intros Hf;
    try done; eexists; reflexivity.
Qed.

Lemma recorded_failure (request : AgentRequest) (id : string) (agent : AgentDescriptor)
    (reply : http_reply) (started ended : Z) :
  expert_call_failed reply →
  ∃ msg, recorded request id agent reply started ended = Failure msg id.
Proof.
  intros [msg Hmsg]%(response_of_failed agent). unfold recorded. rewrite Hmsg.
  by eexists.
Qed.

Lemma await_tasks_cons (W : World) (request : AgentRequest) (k : nat) (id : string)
    (agent : AgentDescriptor) (rest : list (string * AgentDescriptor))
    (responses : gmap string outcome) (o : Orchestrator) :
  let x := recorded request id agent (posted W k request)
             (clock o) (clock o + http_took W k) in
  await_tasks W request k ((id, agent) :: rest) responses o =
    await_tasks W request (S k) rest (<[id := x]> responses)
      (after_round W k (round_events id agent x (clock o) (clock o + http_took W k)) o).
Proof.
  cbn [await_tasks]. unfold bind at 1. by rewrite await_one_closed_form.
Qed.

Lemma posts_started_round (id : string) (agent : AgentDescriptor) (x : outcome)
    (started ended : Z) :
  posts_started (round_events id agent x started ended) = 1%nat.
Proof. by destruct x. Qed.

(** The second loop always runs to its end; it writes the keys of its tasks
    and no other, takes the time of its calls added up, posts once per task
    and leaves the ledger and the connections alone. *)
Lemma await_tasks_run (W : World) (request : AgentRequest)
    (tasks : list (string * AgentDescriptor)) :
  ∀ (k : nat) (responses : gmap string outcome) (o : Orchestrator),
  ∃ responses' o',
    await_tasks W request k tasks responses o = (Ok responses', o')
    ∧ dom responses' = dom responses ∪ list_to_set tasks.*1
    ∧ (∀ id, id ∉ tasks.*1 → responses' !! id = responses !! id)
    ∧ clock o' = clock o + sum_took W k (length tasks)
    ∧ active_requests o' = active_requests o
    ∧ websocket_connections o' = websocket_connections o
    ∧ posts_started (trace o') = (posts_started (trace o) + length tasks)%nat.
Proof.
  induction tasks as [| [id agent] rest IH]; intros k responses o.
  - exists responses, o. simpl. repeat split; try done; [set_solver | lia].
  - rewrite await_tasks_cons.
    edestruct IH as (responses' & o' & -> & Hdom & Hother & Hclock & Hledger & Hconns & Hposts).
    exists responses', o'. split; [reflexivity |].
    rewrite Hdom, Hclock, Hledger, Hconns, Hposts. clear IH.
    repeat split.
    + rewrite dom_insert_L, fmap_cons. simpl. set_solver.
    + intros id' Hnotin. rewrite fmap_cons in Hnotin. simpl in Hnotin.
      rewrite Hother by set_solver. apply lookup_insert_ne. set_solver.
    + simpl. lia.
    + simpl. rewrite posts_started_app, posts_started_round. lia.
Qed.




Lemma length_filter_all_but_one (P : string → bool) (ids : list string) (x : string) :
  NoDup ids → x ∈ ids → P x = false →
  (∀ y, y ∈ ids → y ≠ x → P y = true) →
  length (List.filter P ids) = (length ids - 1)%nat.
Proof.
  intros Hnodup Hin Hx Hrest.
  assert (∀ l : list string, (∀ y, y ∈ l → P y = true) → List.filter P l = l) as Hall.
  { induction l as [| y l IH]; intros Hl; [reflexivity |]. simpl.
    rewrite Hl by set_solver. rewrite IH; [reflexivity | set_solver]. }
  induction Hnodup as [| y l Hy Hnodup IH]; [set_solver |].
  simpl. destruct (decide (y = x)) as [-> | Hne].
  - rewrite Hx, Hall; [lia |]. intros z Hz. apply Hrest; set_solver.
  - rewrite Hrest by set_solver. simpl. rewrite IH; [| set_solver | set_solver].
    destruct l; [set_solver | simpl; lia].
Qed.

Lemma NoDup_filter_bool (P : string → bool) (ids : list string) :
  NoDup ids → NoDup (List.filter P ids).
Proof.
  induction 1 as [| y l Hy Hnodup IH]; simpl; [constructor |].
  destruct (P y); [| exact IH]. constructor; [| exact IH].
  rewrite list_elem_of_In, List.filter_In, <- list_elem_of_In. tauto.
Qed.

Lemma elem_of_filter_bool (P : string → bool) (ids : list string) (x : string) :
  x ∈ List.filter P ids ↔ x ∈ ids ∧ P x = true.
Proof. rewrite !list_elem_of_In. apply List.filter_In. Qed.

(** The dispatch takes as long as its calls take when added up. *)
Lemma dispatch_takes_the_sum (W : World) (request : AgentRequest) (ids : list string)
    (o : Orchestrator) :
  clock (_send_to_agents registry W request ids o).2
  = clock o + sum_took W 0 (length (make_tasks registry ids)).
Proof.
  unfold _send_to_agents.
  destruct (await_tasks_run W request (make_tasks registry ids) 0 ∅ o)
    as (responses & o' & -> & _ & _ & Hclock & _).
  exact Hclock.
Qed.

(** C3. The mapping a dispatch returns has for keys exactly the selected ids
    that are in the registry, one entry each.  An id that is not in the
    registry gets no entry and no call, and the dispatch still returns: of
    [N] distinct ids one of which is not registered, [N-1] have an
    outcome. *)
Theorem C3_dispatch_keys_are_the_registered_ids
    (W : World) (request : AgentRequest) (ids : list string) (o : Orchestrator) :
  ∃ responses o',
    _send_to_agents registry W request ids o = (Ok responses, o')
    ∧ dom responses = (list_to_set (List.filter (registered registry) ids) : gset string)
    ∧ (∀ id, registered registry id = false → responses !! id = None)
    ∧ posts_started (trace o')
      = (posts_started (trace o) + length (List.filter (registered registry) ids))%nat
    ∧ (NoDup ids → size responses = length (List.filter (registered registry) ids))
    ∧ (NoDup ids →
       ∀ missing, missing ∈ ids → registered registry missing = false →
       (∀ id, id ∈ ids → id ≠ missing → registered registry id = true) →
       size responses = (length ids - 1)%nat).
Proof.
  unfold _send_to_agents.
  destruct (await_tasks_run W request (make_tasks registry ids) 0 ∅ o)
    as (responses & o' & -> & Hdom & _ & _ & _ & _ & Hposts).
  rewrite make_tasks_ids, dom_empty_L, (left_id_L ∅ (∪)) in Hdom.
  exists responses, o'. split; [reflexivity |]. split; [exact Hdom |].
  assert (NoDup ids → size responses = length (List.filter (registered registry) ids))
    as Hsize.
  { intros Hnodup. rewrite <- size_dom, Hdom.
    apply size_list_to_set, NoDup_filter_bool, Hnodup. }
  repeat split.
  - intros id Hid. apply not_elem_of_dom. rewrite Hdom, elem_of_list_to_set.
    rewrite elem_of_filter_bool. intros [_ Hyes]. congruence.
  - by rewrite Hposts, <- make_tasks_ids, length_fmap.
  - exact Hsize.
  - intros Hnodup missing Hin Hmissing Hrest. rewrite Hsize by exact Hnodup.
    by apply (length_filter_all_but_one _ ids missing).
Qed.

End Dispatch.

Lemma C3_witness :
  NoDup ["credit-agent"; "ghost-agent"; "esg-agent"]
  ∧ registered AGENT_REGISTRY "ghost-agent" = false
  ∧ ∃ responses o',
      _send_to_agents AGENT_REGISTRY failing_world fraud_request
        ["credit-agent"; "ghost-agent"; "esg-agent"] rules_orchestrator = (Ok responses, o')
      ∧ size responses = 2%nat.
Proof.
  assert (NoDup ["credit-agent"; "ghost-agent"; "esg-agent"]) as Hnodup.
  { repeat constructor; set_solver. }
  split; [exact Hnodup |]. split; [reflexivity |].
  destruct (C3_dispatch_keys_are_the_registered_ids AGENT_REGISTRY failing_world
              fraud_request ["credit-agent"; "ghost-agent"; "esg-agent"] rules_orchestrator)
    as (responses & o' & Hrun & _ & _ & _ & _ & Hsize).
  exists responses, o'. split; [exact Hrun |].
  apply (Hsize Hnodup "ghost-agent"); [set_solver | reflexivity |].
  intros id Hin Hne. rewrite !elem_of_cons in Hin.
  destruct Hin as [-> | [-> | [-> | Hin]]]; [reflexivity | done | reflexivity |].
  by apply elem_of_nil in Hin.
Defined.

(** C7. The calls of a dispatch do not run side by side: each task runs
    from start to end when the loop awaits it.  In a dispatch to two
    experts, whatever the world, the post to the second is only entered
    when the call of the first is over, and the dispatch lasts as long as
    the two calls added up. *)
Theorem C7_dispatch_runs_calls_one_after_another
    (W : World) (request : AgentRequest) (o : Orchestrator) :
  let o' := (_send_to_agents AGENT_REGISTRY W request
               ["credit-agent"; "fraud-agent"] o).2 in
  ∃ e1 e2,
    trace o' = trace o ++
      [ Post_started "http://localhost:8081/process" (clock o);
        Post_finished "http://localhost:8081/process" (clock o + http_took W 0);
        Log_error_agent "credit-agent" e1;
        Post_started "http://localhost:8082/process" (clock o + http_took W 0);
        Post_finished "http://localhost:8082/process"
          (clock o + http_took W 0 + http_took W 1);
        Log_error_agent "fraud-agent" e2 ]
    ∧ clock o' - clock o = http_took W 0 + http_took W 1.
Proof.
  unfold _send_to_agents. cbn [make_tasks AGENT_REGISTRY registry_get String.eqb
    Ascii.eqb Bool.eqb].
  rewrite !await_tasks_cons, !recorded_posted. cbn.
  eexists _, _. split; [by rewrite <- app_assoc | lia].
Qed.

(** ** Broadcast *)

Lemma length_list_remove_first (x : nat) (l : list nat) :
  (length (list_remove_first x l) ≤ length l)%nat.
Proof.
  induction l as [| y l IH]; simpl; [lia |].
  destruct (Nat.eqb x y); simpl; lia.
Qed.

(** The loop ends by running off the list, never by running out of rounds. *)
Lemma broadcast_loop_terminates (W : World) (text : message) (fuel : nat) :
  ∀ (i : nat) (o : Orchestrator),
  (length (websocket_connections o) - i ≤ fuel)%nat →
  is_Some (broadcast_loop W text fuel i o).
Proof.
  induction fuel as [| fuel IH]; intros i o Hfuel.
  - simpl. destruct (websocket_connections o !! i) as [c |] eqn:Hc; [| done].
    apply lookup_lt_Some in Hc. lia.
  - simpl. destruct (websocket_connections o !! i) as [c |] eqn:Hc; [| done].
    apply lookup_lt_Some in Hc.
    destruct (send_text W c text); apply IH; simpl; [lia |].
    pose proof (length_list_remove_first c (websocket_connections o)). lia.
Qed.

Lemma broadcast_unserializable (W : World) (event_type : string) (data : pyobj)
    (o : Orchestrator) :
  serializable data = false →
  _broadcast_update W event_type data o = (Raise not_serializable, o).
Proof. intros Hdata. unfold _broadcast_update, json_dumps. run. by rewrite Hdata. Qed.

Lemma broadcast_no_observers (W : World) (event_type : string) (data : pyobj)
    (o : Orchestrator) :
  serializable data = true → websocket_connections o = [] →
  _broadcast_update W event_type data o = (Ok tt, o).
Proof.
  intros Hdata Hnone. unfold _broadcast_update, json_dumps. run.
  rewrite Hdata, Hnone. simpl. by rewrite Hnone.
Qed.

(** When every send goes through, every connection from position [i] on is
    sent to, in order, and the list stays as it is. *)
Lemma broadcast_loop_all_delivered (W : World) (text : message) (fuel : nat) :
  ∀ (i : nat) (o : Orchestrator),
  (length (websocket_connections o) - i ≤ fuel)%nat →
  (∀ c, c ∈ websocket_connections o → send_text W c text = true) →
  ∃ o', broadcast_loop W text fuel i o = Some o'
        ∧ websocket_connections o' = websocket_connections o
        ∧ delivered_to (trace o')
          = delivered_to (trace o) ++ drop i (websocket_connections o).
Proof.
  assert (∀ t c m, delivered_to (t ++ [Send_text c m true]) = delivered_to t ++ [c])
    as Hsnoc.
  { induction t as [| e t IHt]; intros c m; [reflexivity |].
    destruct e as [| | | | | | | c' m' []]; simpl; by rewrite IHt. }
  induction fuel as [| fuel IH]; intros i o Hfuel Hall.
  - simpl. destruct (websocket_connections o !! i) as [c |] eqn:Hc.
    + apply lookup_lt_Some in Hc. lia.
    + exists o. apply lookup_ge_None in Hc.
      by rewrite drop_ge, app_nil_r by lia.
  - simpl. destruct (websocket_connections o !! i) as [c |] eqn:Hc.
    + rewrite Hall by (by eapply list_elem_of_lookup_2).
      destruct (IH (S i) (emit (Send_text c text true) o)) as (o' & -> & Hconns & Hdel);
        [simpl; lia | exact Hall |].
      exists o'. split; [reflexivity |]. split; [exact Hconns |].
      rewrite Hdel. simpl. rewrite Hsnoc, <- app_assoc. f_equal.
      by rewrite (drop_S _ c i Hc).
    + exists o. apply lookup_ge_None in Hc.
      by rewrite drop_ge, app_nil_r by lia.
Qed.

(** C5. A failed send does remove its connection, but the connection that
    follows it in the list is then passed over: with observers 1 and 2 of
    which 1 is dead, the event is never sent to 2, which only hears of the
    next event. *)
Theorem C5_failed_send_passes_over_the_next_connection :
  let run1 := _broadcast_update failing_world "request_completed" completed_nothing
                two_observers in
  let run2 := _broadcast_update failing_world "request_completed" completed_nothing
                run1.2 in
  send_text failing_world 2 {| msg_type := "request_completed";
                               msg_data := completed_nothing; msg_timestamp := 0 |} = true
  ∧ run1.1 = Ok tt
  ∧ websocket_connections run1.2 = [2%nat]
  ∧ attempted_on (trace run1.2) = [1%nat]
  ∧ delivered_to (trace run1.2) = []
  ∧ delivered_to (trace run2.2) = [2%nat].
Proof. repeat split. Qed.

(** ** Orchestrator *)

Section Orchestrator.
Context {V : FieldValidation}.
Variable registry : list (string * AgentDescriptor).

(** A decision's [.dict()] holds the [datetime] of its [timestamp], which
    [json.dumps] refuses. *)
Lemma RoutingDecision_dict_unserializable (d : RoutingDecision) :
  serializable (RoutingDecision_dict d) = false.
Proof.
  unfold RoutingDecision_dict. cbn [serializable forallb].
  by destruct (forallb serializable (PStr <$> selected_agents d)).
Qed.

(** Routing always returns a decision, and does not look at the ledger. *)
Lemma route_returns (W : World) (request : AgentRequest) (o : Orchestrator) :
  ∃ d o1,
    route W request o = (Ok d, o1)
    ∧ active_requests o1 = active_requests o
    ∧ websocket_connections o1 = websocket_connections o
    ∧ ∀ f, route W request (set_active_requests f o) = (Ok d, set_active_requests f o1).
Proof.
  unfold route, LLMRouterStrategy_route, RulesRouterStrategy_route_M.
  rewrite create_routing_prompt_returns. run.
  destruct (strategy o); [| by eexists _, _].
  destruct (llm W) as [e | [e | v]]; try destruct v; run; try by eexists _, _.
  destruct (decision_from _ _ _); run; by eexists _, _.
Qed.

(** [process_request] gets as far as the first broadcast: the record is in
    the ledger as ["processing"], and the encoding of the event raises. *)
Lemma process_request_raises (W : World) (request : AgentRequest) (o : Orchestrator) :
  ∃ d o1,
    route W request o = (Ok d, o1)
    ∧ process_request registry W request o =
        (Raise not_serializable,
         set_active_requests
           (insert (req_id request)
              {| rec_request := request; rec_routing := d;
                 rec_responses := ∅; rec_status := "processing" |})
           (emit (Log_info_routing (req_id request) (selected_agents d)) o1)).
Proof.
  destruct (route_returns W request o) as (d & o1 & Hroute & _).
  exists d, o1. split; [exact Hroute |].
  unfold process_request. unfold bind at 1. rewrite Hroute.
  unfold bind at 1. unfold modify at 1. unfold bind at 1. unfold modify at 1.
  unfold bind at 1. by rewrite broadcast_unserializable
    by apply RoutingDecision_dict_unserializable.
Qed.

(** C6. No request reaches the completed status: whatever the request, the
    strategy and the answers of the experts, [process_request] raises when
    it encodes the routing event, [POST /route] answers 500, and the ledger
    keeps the record as ["processing"] with no responses. *)
Theorem C6_request_stops_before_completion
    (W : World) (request : AgentRequest) (o : Orchestrator) :
  ∃ o' rec,
    route_request registry W request o = (HTTP_error 500 (exn_str not_serializable), o')
    ∧ get_request_status (req_id request) o' = HTTP_200 rec
    ∧ rec_request rec = request
    ∧ rec_status rec = "processing"
    ∧ rec_status rec ≠ "completed"
    ∧ rec_responses rec = ∅.
Proof.
  destruct (process_request_raises W request o) as (d & o1 & _ & Hrun).
  unfold route_request. rewrite Hrun. eexists _, _. split; [reflexivity |].
  unfold get_request_status. simpl. rewrite lookup_insert_eq. done.
Qed.



(** C10. Of two requests with the same id processed one after the other,
    the later one takes the place of the earlier in the ledger: the status
    lookup, which returned the record of the earlier request, now returns
    the record of the later one with the decision made for it; and the
    later request is answered exactly as it is when no earlier record is
    there, with the same record left behind. *)
Theorem C10_same_id_last_writer_wins
    (W1 W2 : World) (r1 r2 : AgentRequest) (o : Orchestrator) :
  req_id r1 = req_id r2 →
  let o1 := (route_request registry W1 r1 o).2 in
  let o2 := (route_request registry W2 r2 o1).2 in
  let fresh := set_active_requests (delete (req_id r1)) o1 in
  ∃ rec1 rec2 d o1',
    get_request_status (req_id r1) o1 = HTTP_200 rec1
    ∧ rec_request rec1 = r1
    ∧ route W2 r2 o1 = (Ok d, o1')
    ∧ get_request_status (req_id r1) o2 = HTTP_200 rec2
    ∧ rec_request rec2 = r2
    ∧ rec_routing rec2 = d
    ∧ (route_request registry W2 r2 fresh).1 = (route_request registry W2 r2 o1).1
    ∧ get_request_status (req_id r1) (route_request registry W2 r2 fresh).2
      = HTTP_200 rec2.
Proof.
  intros Hid o1 o2 fresh.
  destruct (process_request_raises W1 r1 o) as (d1 & p1 & _ & Hrun1).
  destruct (process_request_raises W2 r2 o1) as (d & o1' & Hroute & Hrun2).
  destruct (process_request_raises W2 r2 fresh) as (d' & p' & Hroute' & Hrun3).
  destruct (route_returns W2 r2 o1) as (d0 & p0 & Hroute0 & _ & _ & Hframe).
  unfold fresh in Hroute'. rewrite Hframe in Hroute'. rewrite Hroute in Hroute0.
  injection Hroute0 as <- <-. injection Hroute' as <- <-.
  subst o2. unfold route_request in *. rewrite Hrun2, Hrun3.
  subst fresh o1. rewrite Hrun1 in *. clear Hrun1 Hrun2 Hrun3 Hframe.
  unfold get_request_status. simpl. rewrite <- Hid, !lookup_insert_eq.
  eexists _, _, d, o1'. repeat split. exact Hroute.
Qed.

End Orchestrator.



Lemma C10_witness :
  req_id sample_request = req_id fraud_request
  ∧ ∃ rec,
      get_request_status "r1"
        (route_request AGENT_REGISTRY failing_world fraud_request
           (route_request AGENT_REGISTRY terse_world sample_request llm_orchestrator).2).2
      = HTTP_200 rec
      ∧ rec_request rec = fraud_request.
Proof.
  split; [reflexivity |].
  destruct (C10_same_id_last_writer_wins AGENT_REGISTRY terse_world failing_world
              sample_request fraud_request llm_orchestrator eq_refl)
    as (rec1 & rec2 & d & o1' & _ & _ & _ & Hlookup & Hrequest & _).
  exists rec2. split; [exact Hlookup | exact Hrequest].
Defined.

Example fraud_request_ends_in_500 :
  (route_request AGENT_REGISTRY failing_world fraud_request rules_orchestrator).1
  = HTTP_error 500 "Object of type datetime is not JSON serializable"
  ∧ rec_status <$>
      active_requests
        (route_request AGENT_REGISTRY failing_world fraud_request rules_orchestrator).2
      !! "r1"
    = Some "processing".
Proof. split; reflexivity. Qed.

(** * Further properties of the router *)

(** ** Broadcast *)

Lemma filter_keeps_all (P : nat → Prop) `{∀ x, Decision (P x)} (l : list nat) :
  (∀ x, x ∈ l → P x) → filter P l = l.
Proof.
  induction l as [| z l IH]; intros Hall; [reflexivity |].
  rewrite filter_cons_True by (apply Hall; set_solver).
  f_equal. apply IH. intros x Hx. apply Hall. set_solver.
Qed.

Lemma list_remove_first_NoDup (x : nat) (l : list nat) :
  NoDup l → list_remove_first x l = filter (λ y, y ≠ x) l.
Proof.
  induction 1 as [| y l Hy Hnodup IH]; [reflexivity |]. simpl.
  destruct (Nat.eqb_spec x y) as [-> | Hne].
  - rewrite filter_cons_False by (intros Hyy; by apply Hyy).
    symmetry. apply filter_keeps_all. intros z Hz ->. by apply Hy.
  - rewrite filter_cons_True by congruence. by rewrite IH.
Qed.

Lemma filter_not_in_nil (l : list nat) : filter (λ c, c ∉ ([] : list nat)) l = l.
Proof. apply filter_keeps_all. intros x _. apply not_elem_of_nil. Qed.

(** Every round of the loop sends to a connection of the list; the
    connections that are gone at the end are those a send failed on. *)
Lemma broadcast_loop_removes_failed (W : World) (text : message) (fuel : nat) :
  ∀ (i : nat) (o o' : Orchestrator),
  broadcast_loop W text fuel i o = Some o' →
  NoDup (websocket_connections o) →
  ∃ evs,
    trace o' = trace o ++ evs
    ∧ websocket_connections o'
      = filter (λ c, c ∉ failed_on evs) (websocket_connections o)
    ∧ active_requests o' = active_requests o
    ∧ clock o' = clock o
    ∧ strategy o' = strategy o
    ∧ (∀ c, c ∈ failed_on evs → send_text W c text = false)
    ∧ (∀ c, c ∈ delivered_to evs → send_text W c text = true)
    ∧ (∀ c, c ∈ attempted_on evs → c ∈ websocket_connections o).
Proof.
  induction fuel as [| fuel IH]; intros i o o' Hrun Hnodup; simpl in Hrun;
    destruct (websocket_connections o !! i) as [c |] eqn:Hc; try discriminate;
    try (injection Hrun as <-; exists []; rewrite app_nil_r, filter_not_in_nil;
         repeat split; intros c' Hc'; by apply elem_of_nil in Hc').
  assert (c ∈ websocket_connections o) as Hin by (by eapply list_elem_of_lookup_2).
  destruct (send_text W c text) eqn:Hsend.
  - destruct (IH _ _ _ Hrun Hnodup)
      as (evs & Htrace & Hconns & Hledger & Hclock & Hstrategy & Hfailed & Hdelivered & Hatt).
    exists (Send_text c text true :: evs). simpl in *.
    rewrite Htrace, <- app_assoc. repeat split; try done.
    + intros c' [-> | Hc']%elem_of_cons; [exact Hsend | by apply Hdelivered].
    + intros c' [-> | Hc']%elem_of_cons; [exact Hin | by apply Hatt].
  - destruct (IH _ _ _ Hrun) as
      (evs & Htrace & Hconns & Hledger & Hclock & Hstrategy & Hfailed & Hdelivered & Hatt).
    { simpl. rewrite list_remove_first_NoDup by exact Hnodup.
      by apply NoDup_filter. }
    exists (Send_text c text false :: evs). simpl in *.
    rewrite Htrace, <- app_assoc. repeat split; try done.
    + rewrite Hconns, list_remove_first_NoDup by exact Hnodup.
      rewrite list_filter_filter. apply list_filter_iff. intros c'.
      rewrite not_elem_of_cons. tauto.
    + intros c' [-> | Hc']%elem_of_cons; [exact Hsend | by apply Hfailed].
    + intros c' [-> | Hc']%elem_of_cons; [exact Hin |].
      apply Hatt in Hc'. rewrite list_remove_first_NoDup in Hc' by exact Hnodup.
      by apply list_elem_of_filter in Hc' as [_ Hc'].
Qed.

Lemma failed_on_attempted (evs : list event) (c : nat) :
  c ∈ failed_on evs → c ∈ attempted_on evs.
Proof.
  induction evs as [| e evs IH]; [done |].
  destruct e as [| | | | | | | c' m []]; simpl; set_solver.
Qed.

Section Broadcast_facts.
Variables (W : World) (event_type : string) (data : pyobj) (o : Orchestrator).

(** X1. When the payload can be encoded and every send goes through,
    [_broadcast_update] returns, the event has been delivered to every
    connection in list order, and the list of connections is unchanged. *)
Theorem X1_broadcast_reaches_everyone_when_sends_succeed :
  serializable data = true →
  (∀ c, c ∈ websocket_connections o →
        send_text W c {| msg_type := event_type; msg_data := data;
                         msg_timestamp := clock o |} = true) →
  ∃ o', _broadcast_update W event_type data o = (Ok tt, o')
        ∧ websocket_connections o' = websocket_connections o
        ∧ delivered_to (trace o') = delivered_to (trace o) ++ websocket_connections o.
Proof.
  intros Hdata Hall. unfold _broadcast_update, json_dumps. run. rewrite Hdata.
  destruct (broadcast_loop_all_delivered W
              {| msg_type := event_type; msg_data := data; msg_timestamp := clock o |}
              (length (websocket_connections o)) 0 o) as (o' & Hrun & Hconns & Hdel);
    [lia | exact Hall |].
  exists o'. simpl. rewrite Hrun. simpl. by rewrite drop_0 in Hdel.
Qed.

Lemma broadcast_update_effect :
  serializable data = true →
  NoDup (websocket_connections o) →
  ∃ o' evs,
    _broadcast_update W event_type data o = (Ok tt, o')
    ∧ trace o' = trace o ++ evs
    ∧ websocket_connections o'
      = filter (λ c, c ∉ failed_on evs) (websocket_connections o)
    ∧ (∀ c, c ∈ failed_on evs →
            c ∈ websocket_connections o
            ∧ send_text W c {| msg_type := event_type; msg_data := data;
                               msg_timestamp := clock o |} = false)
    ∧ active_requests o' = active_requests o
    ∧ clock o' = clock o.
Proof.
  intros Hdata Hnodup. unfold _broadcast_update, json_dumps. run. rewrite Hdata. simpl.
  destruct (broadcast_loop_terminates W
              {| msg_type := event_type; msg_data := data; msg_timestamp := clock o |}
              (length (websocket_connections o)) 0 o) as [o' Hrun]; [lia |].
  rewrite Hrun. simpl.
  destruct (broadcast_loop_removes_failed _ _ _ _ _ _ Hrun Hnodup)
    as (evs & Htrace & Hconns & Hledger & Hclock & _ & Hfailed & _ & Hatt).
  exists o', evs. split; [reflexivity |]. split; [exact Htrace |].
  split; [exact Hconns |]. split; [| by split]. intros c Hc. split.
  - by apply Hatt, failed_on_attempted.
  - by apply Hfailed.
Qed.

(** X2. When the payload can be encoded and no socket is in the list twice,
    [_broadcast_update] returns, and the connections left in the list are
    exactly those no send failed on during this broadcast: a failed send
    removes its own connection and no other.  Ledger and clock are not
    touched. *)
Theorem X2_broadcast_removes_exactly_the_failed_connections :
  serializable data = true →
  NoDup (websocket_connections o) →
  ∃ o' evs,
    _broadcast_update W event_type data o = (Ok tt, o')
    ∧ trace o' = trace o ++ evs
    ∧ websocket_connections o'
      = filter (λ c, c ∉ failed_on evs) (websocket_connections o)
    ∧ (∀ c, c ∈ failed_on evs →
            c ∈ websocket_connections o
            ∧ send_text W c {| msg_type := event_type; msg_data := data;
                               msg_timestamp := clock o |} = false)
    ∧ active_requests o' = active_requests o
    ∧ clock o' = clock o.
Proof. exact broadcast_update_effect. Qed.

End Broadcast_facts.

(** ** What the completion event can carry *)

Lemma outcome_dict_serializable (x : outcome) :
  serializable (outcome_dict x) = match x with Success _ => false | Failure _ _ => true end.
Proof.
  destruct x as [r | e a]; [| reflexivity].
  unfold outcome_dict, AgentResponse_dict. cbn [serializable forallb].
  by destruct (forallb _ (ar_metadata r)).
Qed.

Lemma responses_dict_serializable (responses : gmap string outcome) :
  serializable (responses_dict responses) = true
  ↔ ∀ id x, responses !! id = Some x → ∃ e a, x = Failure e a.
Proof.
  unfold responses_dict. cbn [serializable]. rewrite forallb_forall. split.
  - intros Hall id x Hx.
    specialize (Hall (id, outcome_dict x)). simpl in Hall.
    rewrite outcome_dict_serializable in Hall.
    destruct x as [r | e a]; [| by eauto]. exfalso.
    assert (false = true) as Hff; [| discriminate].
    apply Hall. apply list_elem_of_In, list_elem_of_fmap.
    exists (id, Success r). split; [reflexivity |]. by apply elem_of_map_to_list.
  - intros Hall [id v] Hin. apply list_elem_of_In, list_elem_of_fmap in Hin.
    destruct Hin as ([id' x] & [= -> ->] & Hin). apply elem_of_map_to_list in Hin.
    destruct (Hall _ _ Hin) as (e & a & ->). reflexivity.
Qed.

Lemma forallb_false_witness {A} (f : A → bool) (l : list A) :
  forallb f l = false → ∃ x, x ∈ l ∧ f x = false.
Proof.
  induction l as [| y l IH]; [discriminate |]. simpl.
  destruct (f y) eqn:Hy; simpl.
  - intros (x & Hx & Hfx)%IH. exists x. split; [set_solver | exact Hfx].
  - intros _. exists y. split; [set_solver | exact Hy].
Qed.

Lemma responses_dict_unserializable (responses : gmap string outcome) :
  serializable (responses_dict responses) = false
  ↔ ∃ id r, responses !! id = Some (Success r).
Proof.
  split.
  - unfold responses_dict. cbn [serializable].
    intros ([id v] & Hin & Hv)%forallb_false_witness.
    apply list_elem_of_fmap in Hin as ([id' x] & [= -> ->] & Hin).
    apply elem_of_map_to_list in Hin. rewrite outcome_dict_serializable in Hv.
    destruct x as [r | e a]; [by exists id', r | discriminate].
  - intros (id & r & Hr).
    destruct (serializable (responses_dict responses)) eqn:Hser; [| reflexivity].
    destruct (proj1 (responses_dict_serializable responses) Hser _ _ Hr)
      as (e & a & [=]).
Qed.

Lemma broadcast_returns (W : World) (event_type : string) (data : pyobj)
    (o : Orchestrator) :
  serializable data = true → (_broadcast_update W event_type data o).1 = Ok tt.
Proof.
  intros Hdata. unfold _broadcast_update, json_dumps, bind, get, modify.
  cbn [msg_data]. by rewrite Hdata.
Qed.

(** X3. The [request_completed] event cannot be encoded as soon as one
    expert has answered: a [Success] entry holds the [datetime] of
    [AgentResponse.timestamp].  [_broadcast_update] raises on the completion
    payload exactly when the responses hold a [Success], and then nothing is
    sent; it returns exactly when every entry is a [Failure]. *)
Theorem X3_completion_event_raises_iff_some_expert_succeeded
    (W : World) (request : AgentRequest) (responses : gmap string outcome)
    (o : Orchestrator) :
  ((∃ id r, responses !! id = Some (Success r))
   ↔ _broadcast_update W "request_completed" (completed_payload request responses) o
     = (Raise not_serializable, o))
  ∧ ((∀ id x, responses !! id = Some x → ∃ e a, x = Failure e a)
     ↔ (_broadcast_update W "request_completed"
          (completed_payload request responses) o).1 = Ok tt).
Proof.
  assert (serializable (completed_payload request responses)
          = serializable (responses_dict responses)) as Hpayload.
  { unfold completed_payload. cbn [serializable forallb]. by rewrite andb_true_r. }
  rewrite <- responses_dict_unserializable, <- responses_dict_serializable, <- Hpayload.
  destruct (serializable (completed_payload request responses)) eqn:Hser.
  - pose proof (broadcast_returns W "request_completed" _ o Hser) as Hok.
    split; split; try done. intros Hraise. rewrite Hraise in Hok. discriminate.
  - rewrite broadcast_unserializable by exact Hser. split; split; done.
Qed.

(** ** Dispatch *)

Section Dispatch_facts.
Context {V : FieldValidation}.
Variable registry : list (string * AgentDescriptor).

Lemma recorded_agent_id (request : AgentRequest) (id : string) (agent : AgentDescriptor)
    (reply : http_reply) (started ended : Z) :
  outcome_agent_id (recorded request id agent reply started ended) = id.
Proof.
  unfold recorded, outcome_of.
  destruct (response_of agent reply) as [response | e]; [| reflexivity].
  by destruct (as_str response).
Qed.

Lemma await_tasks_agent_ids (W : World) (request : AgentRequest)
    (tasks : list (string * AgentDescriptor)) :
  ∀ (k : nat) (responses responses' : gmap string outcome) (o o' : Orchestrator),
  await_tasks W request k tasks responses o = (Ok responses', o') →
  (∀ id x, responses !! id = Some x → outcome_agent_id x = id) →
  ∀ id x, responses' !! id = Some x → outcome_agent_id x = id.
Proof.
  induction tasks as [| [id1 agent1] rest IH]; intros k responses responses' o o' Hrun Hinv.
  - simpl in Hrun. by injection Hrun as <- _.
  - rewrite await_tasks_cons in Hrun. apply (IH _ _ _ _ _ Hrun).
    intros id x. destruct (decide (id1 = id)) as [-> | Hne].
    + rewrite lookup_insert_eq. intros [= <-]. apply recorded_agent_id.
    + rewrite lookup_insert_ne by exact Hne. apply Hinv.
Qed.

(** X5. In the mapping a dispatch returns, every entry sits under the agent
    id it names, whether the call succeeded (the [agent_id] of the
    [AgentResponse]) or failed (the [agent_id] beside the [error]); and the
    dispatch reads and writes neither the ledger nor the list of
    connections. *)
Theorem X5_dispatch_entries_name_their_key
    (W : World) (request : AgentRequest) (ids : list string) (o : Orchestrator) :
  ∃ responses o',
    _send_to_agents registry W request ids o = (Ok responses, o')
    ∧ (∀ id x, responses !! id = Some x → outcome_agent_id x = id)
    ∧ active_requests o' = active_requests o
    ∧ websocket_connections o' = websocket_connections o.
Proof.
  unfold _send_to_agents.
  destruct (await_tasks_run W request (make_tasks registry ids) 0 ∅ o)
    as (responses & o' & Hrun & _ & _ & _ & Hledger & Hconns & _).
  exists responses, o'. split; [exact Hrun |]. split; [| by split].
  apply (await_tasks_agent_ids _ _ _ _ _ _ _ _ Hrun). intros id x Hx.
  by rewrite lookup_empty in Hx.
Qed.

(** X6. A dispatch lasts as long as its calls last when added up, one term
    per selected id found in the registry, an id selected twice counting
    twice. *)
Theorem X6_dispatch_lasts_the_sum_of_its_calls
    (W : World) (request : AgentRequest) (ids : list string) (o : Orchestrator) :
  clock (_send_to_agents registry W request ids o).2 - clock o
  = sum_took W 0 (length (List.filter (registered registry) ids)).
Proof.
  rewrite dispatch_takes_the_sum, <- make_tasks_ids, length_fmap. lia.
Qed.

End Dispatch_facts.

(** ** Strategies *)

Section Strategy_facts.
Context {V : FieldValidation}.

(** X7. The model-based strategy never raises and calls the model exactly
    once: the prompt it builds first encodes the metadata of the request,
    which is decoded JSON and so can be encoded.  Either the reply is a JSON object whose fields pass validation,
    and the decision is made of these fields with nothing logged; or the
    decision is the rule-based one and one error is logged.  Ledger and
    connections are not touched either way. *)
Theorem X7_model_route_decides_or_falls_back
    (W : World) (request : AgentRequest) (o : Orchestrator) :
  ∃ d o',
    LLMRouterStrategy_route W request o = (Ok d, o')
    ∧ model_calls (trace o') = S (model_calls (trace o))
    ∧ clock o' = clock o + llm_took W
    ∧ active_requests o' = active_requests o
    ∧ websocket_connections o' = websocket_connections o
    ∧ ((∃ data, llm W = Generate_returned (inr (PDict data))
                ∧ decision_from request data (clock o') = Valid d
                ∧ trace o' = trace o ++ [Generate_content])
       ∨ (∃ e, d = RulesRouterStrategy_route request (clock o')
               ∧ trace o' = trace o ++ [Generate_content; Log_error_llm e])).
Proof.
  assert (∀ e, model_calls ((trace o ++ [Generate_content]) ++ [Log_error_llm e])
               = S (model_calls (trace o))) as Hfallback.
  { intros e. rewrite !model_calls_app. change (model_calls [Generate_content]) with 1%nat.
    change (model_calls [Log_error_llm e]) with 0%nat. lia. }
  assert (model_calls (trace o ++ [Generate_content]) = S (model_calls (trace o)))
    as Hdecided.
  { rewrite model_calls_app. change (model_calls [Generate_content]) with 1%nat. lia. }
  unfold LLMRouterStrategy_route, RulesRouterStrategy_route_M.
  rewrite create_routing_prompt_returns. run.
  destruct (llm W) as [e | [e | v]] eqn:Hllm; try destruct v; run;
    try (eexists _, _; split; [reflexivity |]; simpl;
         split; [apply Hfallback |]; repeat (split; [reflexivity |]);
         right; eexists; split; [reflexivity |]; by rewrite <- app_assoc).
  destruct (decision_from request d (clock o + llm_took W)) as [dec | why] eqn:Hdec; run.
  - eexists _, _. split; [reflexivity |]. simpl. split; [exact Hdecided |].
    repeat (split; [reflexivity |]). left. by exists d.
  - eexists _, _. split; [reflexivity |]. simpl. split; [apply Hfallback |].
    repeat (split; [reflexivity |]). right. eexists. split; [reflexivity |].
    by rewrite <- app_assoc.
Qed.

Lemma rules_selected_registered (request : AgentRequest) (now : Z) :
  NoDup (selected_agents (RulesRouterStrategy_route request now))
  ∧ Forall (λ id, registered AGENT_REGISTRY id = true)
      (selected_agents (RulesRouterStrategy_route request now))
  ∧ (1 ≤ length (selected_agents (RulesRouterStrategy_route request now)) ≤ 3)%nat.
Proof.
  unfold RulesRouterStrategy_route.
  destruct (req_type request);
    [| | | destruct (any_word_in _ _), (any_word_in _ _), (any_word_in _ _)];
    simpl; (split; [| split; [| lia]]);
    try (repeat constructor; set_solver).
Qed.

(** X8. Every id the rule-based strategy selects is in [AGENT_REGISTRY], and
    none is selected twice: one to three agents.  So the dispatch of a
    rule-based decision calls each selected agent once and returns a mapping
    whose keys are exactly the selected ids. *)
Theorem X8_rules_decision_dispatches_to_all_it_selects
    (W : World) (request : AgentRequest) (now : Z) (o : Orchestrator) :
  let selected := selected_agents (RulesRouterStrategy_route request now) in
  NoDup selected
  ∧ (1 ≤ length selected ≤ 3)%nat
  ∧ ∃ responses o',
      _send_to_agents AGENT_REGISTRY W request selected o = (Ok responses, o')
      ∧ dom responses = (list_to_set selected : gset string)
      ∧ size responses = length selected
      ∧ posts_started (trace o') = (posts_started (trace o) + length selected)%nat.
Proof.
  intros selected.
  destruct (rules_selected_registered request now) as (Hnodup & Hreg & Hlen).
  fold selected in Hnodup, Hreg, Hlen. split; [exact Hnodup |]. split; [exact Hlen |].
  unfold _send_to_agents.
  destruct (await_tasks_run W request (make_tasks AGENT_REGISTRY selected) 0 ∅ o)
    as (responses & o' & -> & Hdom & _ & _ & _ & _ & Hposts).
  assert (List.filter (registered AGENT_REGISTRY) selected = selected) as Hall.
  { clear -Hreg. induction Hreg as [| id l Hid _ IH]; [reflexivity |].
    simpl. by rewrite Hid, IH. }
  rewrite make_tasks_ids, Hall, dom_empty_L, (left_id_L ∅ (∪)) in Hdom.
  exists responses, o'. split; [reflexivity |]. split; [exact Hdom |]. split.
  - rewrite <- size_dom, Hdom. by apply size_list_to_set.
  - by rewrite Hposts, <- (length_fmap fst), make_tasks_ids, Hall.
Qed.

End Strategy_facts.

(** X10. The simulated load of every registered agent lies between 30 and
    69, whatever the hash function of the process, and there is one load
    per registry key, in registry order. *)
Theorem X10_agent_loads_between_30_and_69
    (hash : string → Z) (registry : list (string * AgentDescriptor)) :
  (_get_agent_loads hash registry).*1 = registry.*1
  ∧ ∀ (id : string) (load : Z),
      (id, load) ∈ _get_agent_loads hash registry → (30 ≤ load ≤ 69)%Z.
Proof.
  unfold _get_agent_loads. split.
  - rewrite <- list_fmap_compose. by apply list_fmap_ext.
  - intros id load ([id' a] & [= -> ->] & _)%list_elem_of_fmap. simpl.
    pose proof (Z.mod_pos_bound (hash id') 40). lia.
Qed.

(** ** The service over time *)

Lemma posts_started_snoc_other (t : list event) (e : event) :
  is_post_started e = false → posts_started (t ++ [e]) = posts_started t.
Proof.
  intros He. rewrite posts_started_app. unfold posts_started at 2. simpl.
  rewrite He. simpl. lia.
Qed.

Lemma attempted_on_app (t1 t2 : list event) :
  attempted_on (t1 ++ t2) = attempted_on t1 ++ attempted_on t2.
Proof.
  induction t1 as [| e t1 IH]; [reflexivity |].
  destruct e; simpl; by rewrite IH.
Qed.

Section Service_facts.
Context {V : FieldValidation}.
Variable registry : list (string * AgentDescriptor).

(** Routing posts to no expert and sends to no observer. *)
Lemma route_is_quiet (W : World) (request : AgentRequest) (o : Orchestrator) :
  posts_started (trace (route W request o).2) = posts_started (trace o)
  ∧ attempted_on (trace (route W request o).2) = attempted_on (trace o).
Proof.
  unfold route, LLMRouterStrategy_route, RulesRouterStrategy_route_M.
  rewrite create_routing_prompt_returns. run.
  destruct (strategy o); [| done].
  destruct (llm W) as [e | [e | v]]; try destruct v; run;
    try destruct (decision_from _ _ _); run;
    rewrite ?posts_started_snoc_other, ?attempted_on_app, ?app_nil_r by reflexivity;
    done.
Qed.

(** One [POST /route]: a record for the request goes into the ledger as
    ["processing"], and nothing else changes but the log. *)
Lemma route_request_effect (W : World) (request : AgentRequest) (o : Orchestrator) :
  let o' := (route_request registry W request o).2 in
  (∃ d, active_requests o'
        = <[req_id request := {| rec_request := request; rec_routing := d;
                                 rec_responses := ∅; rec_status := "processing" |}]>
            (active_requests o))
  ∧ websocket_connections o' = websocket_connections o
  ∧ posts_started (trace o') = posts_started (trace o)
  ∧ attempted_on (trace o') = attempted_on (trace o).
Proof.
  destruct (process_request_raises registry W request o) as (d & o1 & Hroute & Hrun).
  destruct (route_returns W request o) as (d' & o1' & Hroute' & Hledger & Hconns & _).
  rewrite Hroute in Hroute'. injection Hroute' as <- <-.
  pose proof (route_is_quiet W request o) as [Hposts Hsends]. rewrite Hroute in *.
  unfold route_request. rewrite Hrun. simpl in *. split; [| split; [| split]].
  - exists d. by rewrite Hledger.
  - exact Hconns.
  - by rewrite !posts_started_snoc_other, Hposts by reflexivity.
  - by rewrite !attempted_on_app, !app_nil_r, Hsends.
Qed.

(** X11. Whatever requests come in, in whatever worlds, the service never
    posts to an expert and never sends anything to an observer, and the
    list of connections stays as it was. *)
Theorem X11_service_never_reaches_experts_or_observers
    (requests : list (World * AgentRequest)) (o : Orchestrator) :
  posts_started (trace (serve registry requests o)) = posts_started (trace o)
  ∧ attempted_on (trace (serve registry requests o)) = attempted_on (trace o)
  ∧ websocket_connections (serve registry requests o) = websocket_connections o.
Proof.
  revert o. induction requests as [| [W request] rest IH]; intros o; [done |].
  cbn [serve]. destruct (IH (route_request registry W request o).2) as (-> & -> & ->).
  destruct (route_request_effect W request o) as (_ & Hconns & Hposts & Hsends).
  done.
Qed.

(** The ledger after a history: the ids it had and the ids submitted, the
    new records all ["processing"] with no responses. *)
Lemma serve_ledger (requests : list (World * AgentRequest)) :
  ∀ o : Orchestrator,
  dom (active_requests (serve registry requests o))
  = dom (active_requests o) ∪ list_to_set (req_id <$> requests.*2)
  ∧ ∀ id rec, active_requests (serve registry requests o) !! id = Some rec →
      active_requests o !! id = Some rec
      ∨ (rec_status rec = "processing" ∧ rec_responses rec = ∅
         ∧ req_id (rec_request rec) = id
         ∧ rec_request rec ∈ requests.*2).
Proof.
  induction requests as [| [W request] rest IH]; intros o.
  - simpl. split; [set_solver | by left].
  - cbn [serve]. destruct (IH (route_request registry W request o).2) as [Hdom Hrecs].
    destruct (route_request_effect W request o) as ((d & Hledger) & _).
    rewrite Hdom, Hledger, dom_insert_L, !fmap_cons. simpl. split; [set_solver |].
    intros id rec Hrec. destruct (Hrecs id rec Hrec) as [Hold | (? & ? & ? & ?)].
    + rewrite Hledger in Hold. destruct (decide (req_id request = id)) as [<- | Hne].
      * rewrite lookup_insert_eq in Hold. injection Hold as <-. right.
        repeat split; set_solver.
      * rewrite lookup_insert_ne in Hold by exact Hne. by left.
    + right. repeat split; try done. set_solver.
Qed.

(** X12. On an orchestrator that starts empty, after any history of
    requests, the status lookup answers 200 exactly for the ids that were
    submitted and 404 for every other id; and every record it returns is
    that of a submitted request with that id, still ["processing"] and
    without responses. *)
Theorem X12_status_lookup_after_any_history
    (requests : list (World * AgentRequest)) (strategy_name : string) (now : Z)
    (id : string) :
  let o := serve registry requests (RouterOrchestrator strategy_name now) in
  (id ∈ (req_id <$> requests.*2) ↔ ∃ rec, get_request_status id o = HTTP_200 rec)
  ∧ (id ∉ (req_id <$> requests.*2)
     ↔ get_request_status id o = HTTP_error 404 "Request not found")
  ∧ ∀ rec, get_request_status id o = HTTP_200 rec →
      rec_status rec = "processing" ∧ rec_responses rec = ∅
      ∧ req_id (rec_request rec) = id ∧ rec_request rec ∈ requests.*2.
Proof.
  intros o. destruct (serve_ledger requests (RouterOrchestrator strategy_name now))
    as [Hdom Hrecs]. fold o in Hdom, Hrecs.
  assert (id ∈ (req_id <$> requests.*2) ↔ is_Some (active_requests o !! id)) as Hin.
  { rewrite <- elem_of_dom, Hdom. simpl. set_solver. }
  unfold get_request_status. destruct (active_requests o !! id) as [rec |] eqn:Hrec.
  - split; [| split].
    + split; [by eexists | intros _; by apply Hin].
    + split; [intros Hnot; destruct Hnot; by apply Hin | discriminate].
    + intros rec' [= <-]. destruct (Hrecs id rec Hrec) as [Hold | Hnew]; [| exact Hnew].
      simpl in Hold. by rewrite lookup_empty in Hold.
  - split; [| split].
    + split; [intros [rec Hnone]%Hin; discriminate | intros [rec [=]]].
    + split; [done | intros _ [rec Hnone]%Hin; discriminate].
    + intros rec [=].
Qed.

End Service_facts.

(** ** Observers coming and going *)

(** X13. A socket that connects and then disconnects leaves the list of
    connections as it was before it came, whoever else is connected. *)
Theorem X13_accept_then_disconnect_restores_the_list
    (websocket : nat) (o : Orchestrator) :
  websocket ∉ websocket_connections o →
  ∃ o', websocket_disconnect websocket (websocket_accept websocket o) = (Ok tt, o')
        ∧ websocket_connections o' = websocket_connections o
        ∧ active_requests o' = active_requests o
        ∧ trace o' = trace o.
Proof.
  intros Hnew. unfold websocket_disconnect, websocket_accept. run.
  rewrite bool_decide_true by set_solver. eexists. split; [reflexivity |]. simpl.
  split; [| done]. induction (websocket_connections o) as [| c l IH]; simpl.
  - by rewrite Nat.eqb_refl.
  - destruct (Nat.eqb_spec websocket c) as [-> | _]; [set_solver |].
    f_equal. apply IH. set_solver.
Qed.

(** X14. When a broadcast has dropped a socket because a send on it failed,
    the disconnect handler of that socket, which removes it again, raises
    [ValueError]. *)
Theorem X14_disconnect_after_broadcast_dropped_the_socket_raises
    (W : World) (event_type : string) (data : pyobj) (o o' : Orchestrator)
    (evs : list event) (websocket : nat) :
  NoDup (websocket_connections o) →
  _broadcast_update W event_type data o = (Ok tt, o') →
  trace o' = trace o ++ evs →
  websocket ∈ failed_on evs →
  (websocket ∉ websocket_connections o')
  ∧ websocket_disconnect websocket o'
    = (Raise (ValueError "list.remove(x): x not in list"), o').
Proof.
  intros Hnodup Hrun Htrace Hfailed.
  assert (serializable data = true) as Hdata.
  { destruct (serializable data) eqn:Hser; [done |].
    rewrite broadcast_unserializable in Hrun by exact Hser. discriminate. }
  destruct (broadcast_update_effect W event_type data o
              Hdata Hnodup) as (o2 & evs2 & Hrun2 & Htrace2 & Hconns & _).
  rewrite Hrun in Hrun2. injection Hrun2 as <-.
  rewrite Htrace in Htrace2. apply app_inv_head in Htrace2 as <-.
  assert (websocket ∉ websocket_connections o') as Hgone.
  { rewrite Hconns, list_elem_of_filter. tauto. }
  split; [exact Hgone |]. unfold websocket_disconnect. run.
  by rewrite bool_decide_false.
Qed.

(** ** Instances *)

Lemma X1_witness :
  serializable completed_nothing = true
  ∧ ∃ o', _broadcast_update terse_world "request_completed" completed_nothing two_observers
          = (Ok tt, o')
          ∧ websocket_connections o' = [1; 2]%nat
          ∧ delivered_to (trace o') = [1; 2]%nat.
Proof.
  split; [reflexivity |].
  apply (X1_broadcast_reaches_everyone_when_sends_succeed terse_world
           "request_completed" completed_nothing two_observers eq_refl).
  intros c _. reflexivity.
Defined.

Lemma two_observers_NoDup : NoDup (websocket_connections two_observers).
Proof. repeat constructor; set_solver. Defined.

Lemma X2_witness :
  serializable completed_nothing = true
  ∧ NoDup (websocket_connections two_observers)
  ∧ ∃ o' evs,
      _broadcast_update failing_world "request_completed" completed_nothing two_observers
      = (Ok tt, o')
      ∧ trace o' = trace two_observers ++ evs
      ∧ websocket_connections o'
        = filter (λ c, c ∉ failed_on evs) (websocket_connections two_observers).
Proof.
  split; [reflexivity |]. split; [exact two_observers_NoDup |].
  destruct (X2_broadcast_removes_exactly_the_failed_connections failing_world
              "request_completed" completed_nothing two_observers eq_refl
              two_observers_NoDup)
    as (o' & evs & Hrun & Htrace & Hconns & _).
  by exists o', evs.
Defined.

Lemma X13_witness :
  (3%nat ∉ websocket_connections two_observers)
  ∧ ∃ o', websocket_disconnect 3 (websocket_accept 3 two_observers) = (Ok tt, o')
          ∧ websocket_connections o' = [1; 2]%nat.
Proof.
  assert (3%nat ∉ websocket_connections two_observers) as Hnew by (simpl; set_solver).
  split; [exact Hnew |].
  destruct (X13_accept_then_disconnect_restores_the_list 3 two_observers Hnew)
    as (o' & Hrun & Hconns & _).
  by exists o'.
Defined.

Lemma X14_witness :
  websocket_disconnect 1
    (_broadcast_update failing_world "request_completed" completed_nothing
       two_observers).2
  = (Raise (ValueError "list.remove(x): x not in list"),
     (_broadcast_update failing_world "request_completed" completed_nothing
        two_observers).2).
Proof.
  apply (X14_disconnect_after_broadcast_dropped_the_socket_raises failing_world
           "request_completed" completed_nothing two_observers _
           [Send_text 1 {| msg_type := "request_completed";
                           msg_data := completed_nothing; msg_timestamp := 0 |} false] 1
           two_observers_NoDup eq_refl eq_refl).
  simpl. set_solver.
Defined.

(** * The fraud agent *)

Module FraudAgentFacts.
Import FraudAgent.
Local Open Scope Q_scope.

Lemma omap_is_known_strings (names : list string) :
  omap is_known (PStr <$> names) = filter (λ s, s ∈ known_patterns) names.
Proof.
  induction names as [| s names IH]; [reflexivity |].
  rewrite fmap_cons, filter_cons.
  change (omap is_known (PStr s :: (PStr <$> names)))
    with (match is_known (PStr s) with
          | Some y => y :: omap is_known (PStr <$> names)
          | None => omap is_known (PStr <$> names)
          end).
  rewrite IH. unfold is_known. rewrite (bool_decide_decide (s ∈ known_patterns)).
  by destruct (decide (s ∈ known_patterns)).
Qed.

Lemma omap_is_known_known (l : list pyobj) (p : string) :
  p ∈ omap is_known l → p ∈ known_patterns.
Proof.
  rewrite list_elem_of_omap. intros (v & _ & Hv). destruct v; try discriminate.
  simpl in Hv. case_bool_decide; [| discriminate]. by injection Hv as <-.
Qed.

(** X15. Whatever the model replies, [_detect_patterns] returns only names
    of the five known patterns, and nothing when the call fails or the
    reply is not a list.  From a list of strings it keeps the known names in
    the order given, a name listed twice staying twice. *)
Theorem X15_detected_patterns_are_known (reply : llm_reply) :
  (∀ p, p ∈ (_detect_patterns reply).1 → p ∈ known_patterns)
  ∧ (∀ names, reply = Generate_returned (inr (PList (PStr <$> names))) →
       (_detect_patterns reply).1 = filter (λ s, s ∈ known_patterns) names)
  ∧ ((∀ l, reply ≠ Generate_returned (inr (PList l))) → (_detect_patterns reply).1 = []).
Proof.
  split; [| split].
  - intros p. destruct reply as [e | [e | v]]; try destruct v; simpl;
      try (intros Hp; by apply elem_of_nil in Hp).
    apply omap_is_known_known.
  - intros names ->. apply omap_is_known_strings.
  - intros Hnot. destruct reply as [e | [e | v]]; try destruct v; try reflexivity.
    by destruct (Hnot l).
Qed.

Lemma Qmin_inject_Z (a b : Z) : Qmin (inject_Z a) (inject_Z b) == inject_Z (Z.min a b).
Proof.
  destruct (Z.le_ge_cases a b) as [Hab | Hab].
  - rewrite Z.min_l by exact Hab. apply Q.min_l. by rewrite <- Zle_Qle.
  - rewrite Z.min_r by exact Hab. apply Q.min_r. by rewrite <- Zle_Qle.
Qed.

(** The score, in whole numbers. *)
Lemma risk_score_closed_form (indicators : FraudIndicators) (patterns : list string) :
  _calculate_risk_score indicators patterns
  == inject_Z (Z.min 100 (indicators_weight indicators
                          + 10 * Z.of_nat (length patterns))).
Proof.
  rewrite <- Qmin_inject_Z. unfold _calculate_risk_score, indicators_weight.
  apply Q.min_compat; [reflexivity |].
  rewrite inject_Z_plus, inject_Z_mult.
  destruct indicators as [[] [] [] [] [] []]; cbn -[Qplus Qmult inject_Z Z.of_nat];
    rewrite ?inject_Z_plus; ring.
Qed.

Lemma indicators_weight_bounds (indicators : FraudIndicators) :
  (0 ≤ indicators_weight indicators ≤ 125)%Z.
Proof. destruct indicators as [[] [] [] [] [] []]; cbv; split; discriminate. Qed.

(** X16. The risk score is a whole number between 0 and 100: the weights of
    the indicators that are set plus ten per pattern, cut off at 100. *)
Theorem X16_risk_score_is_whole_between_0_and_100
    (indicators : FraudIndicators) (patterns : list string) :
  ∃ n : Z,
    _calculate_risk_score indicators patterns == inject_Z n
    ∧ (0 ≤ n ≤ 100)%Z
    ∧ n = Z.min 100 (indicators_weight indicators + 10 * Z.of_nat (length patterns)).
Proof.
  eexists. split; [apply risk_score_closed_form |]. split; [| reflexivity].
  pose proof (indicators_weight_bounds indicators). lia.
Qed.

Lemma Qle_bool_false (a b : Q) : Qle_bool a b = false ↔ b < a.
Proof.
  split.
  - intros Hfalse. apply Qnot_le_lt. intros Hle%Qle_bool_iff. congruence.
  - intros Hlt. destruct (Qle_bool a b) eqn:Hle; [| reflexivity].
    apply Qle_bool_iff in Hle. exfalso. lra.
Qed.

(** X17. Verdict, level and action agree, whatever the score: a transaction
    is found not fraudulent only below 50, where the level is low or medium;
    the action is a BLOCK exactly when the score is 60 or more; and it is
    APPROVE or MONITOR exactly when the verdict is not fraud. *)
Theorem X17_verdict_level_and_action_agree
    (risk_score : Q) (indicators : FraudIndicators) (patterns : list string) :
  let is_fraudulent := (_determine_fraud_status risk_score indicators patterns).1 in
  let risk_level := _get_risk_level risk_score in
  let action := _get_recommended_action is_fraudulent risk_level in
  (is_fraudulent = false → risk_score < 50 ∧ (risk_level = LOW ∨ risk_level = MEDIUM))
  ∧ (60 <= risk_score ↔ risk_level = HIGH ∨ risk_level = CRITICAL)
  ∧ (60 <= risk_score
     ↔ action = "BLOCK - Immediate transaction denial and account review required"
       ∨ action = "BLOCK - Transaction denied, customer verification required")
  ∧ (is_fraudulent = false
     ↔ action = "APPROVE - Transaction can proceed normally"
       ∨ action = "MONITOR - Allow with enhanced monitoring").
Proof.
  unfold _determine_fraud_status, _get_risk_level, _get_recommended_action.
  destruct (existsb id _); cbn [orb];
    destruct (Qle_bool 70 risk_score) eqn:H70;
    destruct (Qle_bool 50 risk_score) eqn:H50;
    destruct (Qle_bool 80 risk_score) eqn:H80;
    destruct (Qle_bool 60 risk_score) eqn:H60;
    destruct (Qle_bool 30 risk_score) eqn:H30;
    rewrite ?Qle_bool_iff, ?Qle_bool_false in *; cbn [fst];
    try (exfalso; lra);
    (split; [| split; [| split]]);
    try (intros _; split; [lra | tauto]);
    try discriminate;
    split; intros Hx; try lra; try discriminate; try tauto;
    try (destruct Hx; discriminate).
Qed.

Lemma at_least_weight (a b : FraudIndicators) :
  at_least a b → (indicators_weight b ≤ indicators_weight a)%Z.
Proof.
  assert (∀ (x y : bool) (w : Z), (y = true → x = true) → (0 ≤ w)%Z →
            ((if y then w else 0) ≤ (if x then w else 0))%Z) as Hflag.
  { intros [] [] w Hyx Hw; first [lia | by specialize (Hyx eq_refl)]. }
  unfold at_least, indicators_weight. intros (H1 & H2 & H3 & H4 & H5 & H6).
  pose proof (Hflag _ _ 20%Z H1 ltac:(lia)). pose proof (Hflag _ _ 25%Z H2 ltac:(lia)).
  pose proof (Hflag _ _ 15%Z H3 ltac:(lia)). pose proof (Hflag _ _ 15%Z H4 ltac:(lia)).
  pose proof (Hflag _ _ 30%Z H5 ltac:(lia)). pose proof (Hflag _ _ 20%Z H6 ltac:(lia)). lia.
Qed.

(** X18. More evidence never lowers the assessment: when the indicators
    hold at least the flags of another report and there are at least as
    many patterns, the risk score and the risk level are at least as high,
    and a fraud verdict stays a fraud verdict. *)
Theorem X18_more_evidence_never_lowers_the_assessment
    (a b : FraudIndicators) (pa pb : list string) :
  at_least a b →
  (length pb ≤ length pa)%nat →
  let score_a := _calculate_risk_score a pa in
  let score_b := _calculate_risk_score b pb in
  score_b <= score_a
  ∧ (level_rank (_get_risk_level score_b) ≤ level_rank (_get_risk_level score_a))%nat
  ∧ ((_determine_fraud_status score_b b pb).1 = true →
     (_determine_fraud_status score_a a pa).1 = true).
Proof.
  intros Hab Hlen score_a score_b.
  assert (score_b <= score_a) as Hscore.
  { unfold score_a, score_b. rewrite !risk_score_closed_form, <- Zle_Qle.
    pose proof (at_least_weight a b Hab). lia. }
  split; [exact Hscore |]. split.
  - unfold _get_risk_level.
    destruct (Qle_bool 80 score_b) eqn:Hb80, (Qle_bool 60 score_b) eqn:Hb60,
             (Qle_bool 30 score_b) eqn:Hb30,
             (Qle_bool 80 score_a) eqn:Ha80, (Qle_bool 60 score_a) eqn:Ha60,
             (Qle_bool 30 score_a) eqn:Ha30;
      rewrite ?Qle_bool_iff, ?Qle_bool_false in *; simpl; try lia; exfalso; lra.
  - unfold _determine_fraud_status. cbn [existsb id].
    destruct Hab as (Hvel & Hloc & _ & _ & Hpat & _).
    destruct (pattern_match b) eqn:Hpb.
    { rewrite Hpat by reflexivity. reflexivity. }
    destruct (location_anomaly b && velocity_check b) eqn:Hlv.
    { apply andb_prop in Hlv as [Hl Hv]. rewrite Hloc, Hvel by assumption.
      by destruct (pattern_match a). }
    destruct (2 <=? length pb)%nat eqn:Hn.
    { apply Nat.leb_le in Hn.
      replace (2 <=? length pa)%nat with true by (symmetry; apply Nat.leb_le; lia).
      by destruct (pattern_match a), (location_anomaly a && velocity_check a). }
    cbn [orb].
    destruct (Qle_bool 70 score_b) eqn:Hb70, (Qle_bool 50 score_b) eqn:Hb50;
      rewrite ?Qle_bool_iff, ?Qle_bool_false in *; cbn [fst]; try discriminate; intros _;
      destruct (pattern_match a || (location_anomaly a && velocity_check a
                                    || ((2 <=? length pa)%nat || false))); cbn [orb fst];
      try reflexivity;
      destruct (Qle_bool 70 score_a) eqn:Ha70, (Qle_bool 50 score_a) eqn:Ha50;
      rewrite ?Qle_bool_iff, ?Qle_bool_false in *; cbn [fst]; try reflexivity;
      exfalso; lra.
Qed.

(** X21. The additional checks follow the level and three of the flags:
    none is suggested exactly when the score is below 60 and neither the
    device, the location nor the velocity flag is set; the three identity
    checks come first exactly from 60 on; and no check is listed twice. *)
Theorem X21_additional_checks_follow_level_and_flags
    (risk_score : Q) (indicators : FraudIndicators) :
  let checks := _suggest_additional_checks (_get_risk_level risk_score) indicators in
  (checks = [] ↔ risk_score < 60 ∧ device_fingerprint indicators = false
                 ∧ location_anomaly indicators = false
                 ∧ velocity_check indicators = false)
  ∧ (60 <= risk_score
     ↔ take 3 checks = ["Two-factor authentication"; "Identity verification";
                        "Account activity review"])
  ∧ NoDup checks
  ∧ (length checks ≤ 6)%nat.
Proof.
  unfold _suggest_additional_checks, _get_risk_level.
  destruct (Qle_bool 80 risk_score) eqn:H80, (Qle_bool 60 risk_score) eqn:H60,
           (Qle_bool 30 risk_score) eqn:H30;
    rewrite ?Qle_bool_iff, ?Qle_bool_false in *; try (exfalso; lra);
    destruct indicators as [[] [] am me pa []]; cbn [app velocity_check
      location_anomaly device_fingerprint take length];
    (split; [split;
             [first [discriminate | intros _; repeat split; first [lra | reflexivity]]
             | first [reflexivity
                     | intros (? & ? & ? & ?); first [discriminate | exfalso; lra]]] |]);
    (split; [split;
             [first [reflexivity | intros; exfalso; lra]
             | first [discriminate | intros _; lra]] |]);
    (split; [compute_done | lia]).
Qed.

End FraudAgentFacts.

(** * The ESG agent *)

Module ESGAgentFacts.
Import ESGAgent.
Local Open Scope Q_scope.

Lemma Qlt_bool_iff (a b : Q) : Qlt_bool a b = true ↔ a < b.
Proof.
  unfold Qlt_bool. rewrite negb_true_iff. apply FraudAgentFacts.Qle_bool_false.
Qed.

Lemma Qlt_bool_false (a b : Q) : Qlt_bool a b = false ↔ b <= a.
Proof. unfold Qlt_bool. rewrite negb_false_iff. apply Qle_bool_iff. Qed.

(** X19. A higher score never gets a lower rating, and the rating is A or
    better exactly from 70 on. *)
Theorem X19_rating_rises_with_the_score (score1 score2 : Q) :
  (score1 <= score2 →
   (rating_rank (_calculate_rating score1) ≤ rating_rank (_calculate_rating score2))%nat)
  ∧ (70 <= score1 ↔ (4 ≤ rating_rank (_calculate_rating score1))%nat).
Proof.
  unfold _calculate_rating.
  destruct (Qle_bool 90 score1) eqn:H90, (Qle_bool 80 score1) eqn:H80,
           (Qle_bool 70 score1) eqn:H70, (Qle_bool 60 score1) eqn:H60,
           (Qle_bool 50 score1) eqn:H50, (Qle_bool 40 score1) eqn:H40;
    rewrite ?Qle_bool_iff, ?FraudAgentFacts.Qle_bool_false in *;
    try (exfalso; lra);
    (split; [| simpl; split; intros; try lia; try lra]);
    intros Hle;
    destruct (Qle_bool 90 score2) eqn:G90, (Qle_bool 80 score2) eqn:G80,
             (Qle_bool 70 score2) eqn:G70, (Qle_bool 60 score2) eqn:G60,
             (Qle_bool 50 score2) eqn:G50, (Qle_bool 40 score2) eqn:G40;
    rewrite ?Qle_bool_iff, ?FraudAgentFacts.Qle_bool_false in *;
    simpl; try lia; exfalso; lra.
Qed.

(** Where a score lies with respect to 50 and 70 decides the three tests
    made on it; a NaN fails all three. *)
Lemma score_tests (x : pyfloat) :
  (float_lt x 50 = true ∧ float_lt x 70 = true ∧ float_gt x 70 = false
   ∧ ¬ at_or_above 70 x ∧ ¬ is_nan x)
  ∨ (float_lt x 50 = false ∧ float_lt x 70 = true ∧ float_gt x 70 = false
     ∧ ¬ at_or_above 70 x ∧ ¬ is_nan x)
  ∨ (float_lt x 50 = false ∧ float_lt x 70 = false ∧ float_gt x 70 = false
     ∧ at_or_above 70 x ∧ ¬ is_nan x)
  ∨ (float_lt x 50 = false ∧ float_lt x 70 = false ∧ float_gt x 70 = true
     ∧ at_or_above 70 x ∧ ¬ is_nan x)
  ∨ (float_lt x 50 = false ∧ float_lt x 70 = false ∧ float_gt x 70 = false
     ∧ ¬ at_or_above 70 x ∧ is_nan x).
Proof.
  destruct x as [q | [|] |]; cbn [float_lt float_gt at_or_above is_nan].
  - destruct (Qlt_bool q 50) eqn:H50, (Qlt_bool q 70) eqn:H70, (Qlt_bool 70 q) eqn:G70;
      rewrite ?Qlt_bool_iff, ?Qlt_bool_false in *; try (exfalso; lra).
    + left. repeat split; try tauto; lra.
    + right. left. repeat split; try tauto; lra.
    + do 3 right. left. repeat split; try tauto; lra.
    + do 2 right. left. repeat split; try tauto; lra.
  - left. repeat split; try tauto; discriminate.
  - do 3 right. left. repeat split; tauto.
  - do 4 right. repeat split; tauto.
Qed.

(** X20. Risks, recommendations and opportunities go by the same
    thresholds.  No risk is listed exactly when nothing is recommended,
    which is when each of the three scores is either a number that is 70 or
    more or not a number at all: a NaN score, which [json.loads] lets
    through, is below no threshold and above none, so it brings no risk, no
    recommendation and no opportunity.  An area that is listed as an
    opportunity (score above 70) has no risk and no recommendation, so
    opportunities and pairs of recommendations are three at most. *)
Theorem X20_risks_recommendations_and_opportunities_cohere
    (request : AgentRequest) (environmental : EnvironmentalScore)
    (social : SocialScore) (governance : GovernanceScore) :
  let risks := _identify_risks request environmental social governance in
  let opportunities := _identify_opportunities request environmental social governance in
  let recommendations := _generate_recommendations environmental social governance risks in
  (risks = [] ↔ (at_or_above 70 (env_score environmental) ∨ is_nan (env_score environmental))
                ∧ (at_or_above 70 (soc_score social) ∨ is_nan (soc_score social))
                ∧ (at_or_above 70 (gov_score governance) ∨ is_nan (gov_score governance)))
  ∧ (recommendations = [] ↔ risks = [])
  ∧ (2 * length opportunities + length recommendations ≤ 6)%nat
  ∧ (length opportunities = 3%nat →
     risks = [] ∧ at_or_above 70 (env_score environmental)
     ∧ at_or_above 70 (soc_score social) ∧ at_or_above 70 (gov_score governance))
  ∧ ("Green financing opportunities" ∈ opportunities →
     ("Climate transition risk" ∉ risks)
     ∧ ("Develop science-based emissions targets" ∉ recommendations))
  ∧ ("High environmental risk - potential regulatory penalties" ∈ risks →
     "Climate transition risk" ∈ risks)
  ∧ (is_nan (env_score environmental) → is_nan (soc_score social) →
     is_nan (gov_score governance) →
     risks = [] ∧ opportunities = [] ∧ recommendations = []).
Proof.
  unfold _identify_risks, _identify_opportunities, _generate_recommendations.
  destruct (score_tests (env_score environmental))
    as [(-> & -> & -> & He & Ne) | [(-> & -> & -> & He & Ne)
        | [(-> & -> & -> & He & Ne) | [(-> & -> & -> & He & Ne)
        | (-> & -> & -> & He & Ne)]]]];
  destruct (score_tests (soc_score social))
    as [(-> & -> & -> & Hs & Ns) | [(-> & -> & -> & Hs & Ns)
        | [(-> & -> & -> & Hs & Ns) | [(-> & -> & -> & Hs & Ns)
        | (-> & -> & -> & Hs & Ns)]]]];
  destruct (score_tests (gov_score governance))
    as [(-> & -> & -> & Hg & Ng) | [(-> & -> & -> & Hg & Ng)
        | [(-> & -> & -> & Hg & Ng) | [(-> & -> & -> & Hg & Ng)
        | (-> & -> & -> & Hg & Ng)]]]];
  cbn [app length];
  (split; [split; [try discriminate; intros _; tauto
                  | try reflexivity; intros; exfalso; tauto] |]);
  (split; [split; (reflexivity || discriminate) |]);
  (split; [lia |]);
  (split; [try discriminate; intros _; tauto |]);
  (split; [intros Hin; split; intros Hin' |]);
  try (split; [intros Hin |]);
  try (intros; (tauto || (split; [reflexivity | split; reflexivity])));
  try compute_done;
  try (exfalso; revert Hin; try revert Hin'; compute_done).
Qed.

End ESGAgentFacts.

Lemma X18_witness :
  let quiet := {| FraudAgent.velocity_check := false; FraudAgent.location_anomaly := false;
                  FraudAgent.amount_anomaly := true; FraudAgent.merchant_risk := false;
                  FraudAgent.pattern_match := false;
                  FraudAgent.device_fingerprint := false |} in
  let loud := {| FraudAgent.velocity_check := true; FraudAgent.location_anomaly := true;
                 FraudAgent.amount_anomaly := true; FraudAgent.merchant_risk := false;
                 FraudAgent.pattern_match := false;
                 FraudAgent.device_fingerprint := false |} in
  FraudAgent.at_least loud quiet
  ∧ (FraudAgent._calculate_risk_score quiet [] <=
     FraudAgent._calculate_risk_score loud ["rapid_small_transactions"])%Q.
Proof.
  intros quiet loud.
  assert (FraudAgent.at_least loud quiet) as Hmore.
  { repeat split; simpl; intros; (reflexivity || discriminate). }
  split; [exact Hmore |].
  apply (FraudAgentFacts.X18_more_evidence_never_lowers_the_assessment
           loud quiet ["rapid_small_transactions"] [] Hmore).
  simpl. lia.
Defined.
